(** * Home expenses splitter: ledger, monthly totals and settlements

    A shallow embedding of [expense.py], [person.py] and the
    [ExpenseManager] class of [main.py], followed by the properties of the
    ledger operations, of the monthly grouping, of the totals and of the
    greedy settlement loop.

    Modelling conventions.
    - Money amounts are Python floats in the program.  They are embedded
      as exact rationals ([Q]); equality of amounts is [==] (equality of
      rationals) and rounding of binary floating point is not modelled.
    - A Python [dict] is an association list in insertion order whose keys
      are pairwise distinct ([dict_wf]).
    - A method of [ExpenseManager] is a function from the manager to an
      outcome (returned value or raised exception) and the manager after
      the call.
    - The random [uuid.uuid4()] of a new expense is an explicit argument. *)

From Equations Require Import Equations.
From Stdlib Require Import List String Ascii Bool Arith ZArith QArith Lia Lqa
  Permutation.
Import ListNotations.

Local Open Scope string_scope.
Local Open Scope list_scope.
Local Open Scope Q_scope.

(** ** Python runtime *)

Module Py.

(** Exceptions the manager can raise. *)
Inductive exn : Type :=
| ValueError (msg : string)
| ZeroDivisionError.

Inductive outcome (A : Type) : Type :=
| Returned (a : A)
| Raised (e : exn).
Arguments Returned {A} a.
Arguments Raised {A} e.

Definition bind {A B} (m : outcome A) (k : A -> outcome B) : outcome B :=
  match m with
  | Returned a => k a
  | Raised e => Raised e
  end.

(** [x < y] and [x == y] on amounts, as booleans. *)
Definition Qlt_bool (x y : Q) : bool :=
  match x ?= y with Lt => true | _ => false end.

(** [sum(xs)]: starts from 0 and adds from the left. *)
Definition sum (xs : list Q) : Q := fold_left Qplus xs 0.

Definition sum_int (xs : list Z) : Z := fold_left Z.add xs 0%Z.

(** [min(a, b)]: the first argument unless the second is smaller. *)
Definition min (a b : Q) : Q := if Qlt_bool b a then b else a.

(** [x / n] with an integer divisor. *)
Definition truediv (x : Q) (n : Z) : outcome Q :=
  if Z.eqb n 0 then Raised ZeroDivisionError else Returned (x / inject_Z n).

(** *** Dictionaries *)

Definition dict (V : Type) : Type := list (string * V).

Definition keys {V} (d : dict V) : list string := map fst d.

Definition dict_wf {V} (d : dict V) : Prop := NoDup (keys d).

Fixpoint get {V} (d : dict V) (k : string) : option V :=
  match d with
  | [] => None
  | (k', v) :: d' => if String.eqb k' k then Some v else get d' k
  end.

Definition contains {V} (d : dict V) (k : string) : bool :=
  match get d k with Some _ => true | None => false end.

(** [d[k] = v]: overwrites in place, or adds the key at the end. *)
Fixpoint set {V} (d : dict V) (k : string) (v : V) : dict V :=
  match d with
  | [] => [(k, v)]
  | (k', v') :: d' =>
      if String.eqb k' k then (k', v) :: d' else (k', v') :: set d' k v
  end.

(** [d[k] = f(d[k])] for a key that is present. *)
Definition update {V} (d : dict V) (k : string) (f : V -> V) : dict V :=
  map (fun kv => if String.eqb (fst kv) k then (fst kv, f (snd kv)) else kv) d.

(** *** Strings and dates *)

Definition upper_ascii (c : ascii) : ascii :=
  let n := nat_of_ascii c in
  if (97 <=? n)%nat && (n <=? 122)%nat then ascii_of_nat (n - 32) else c.

(** [s.upper()] on the ASCII strings that [strftime] produces. *)
Fixpoint upper (s : string) : string :=
  match s with
  | EmptyString => EmptyString
  | String c s' => String (upper_ascii c) (upper s')
  end.

(** [datetime.date]. *)
Record date : Type := mkdate { year : Z; month : Z; day : Z }.

(** The ranges [datetime.date] enforces on its fields. *)
Definition valid_date (d : date) : Prop :=
  (1 <= year d <= 9999)%Z /\ (1 <= month d <= 12)%Z /\
  (1 <= day d <= 31)%Z.

(** [%b]: abbreviated month name. *)
Definition month_abbr (m : Z) : string :=
  nth (Z.to_nat (m - 1))
    ["Jan"; "Feb"; "Mar"; "Apr"; "May"; "Jun";
     "Jul"; "Aug"; "Sep"; "Oct"; "Nov"; "Dec"] "".

Definition digit (n : Z) : ascii := ascii_of_N (Z.to_N (48 + n mod 10)).

(** The year on four decimal digits, padded with zeros: the [YYYY] of
    [date.isoformat()]. *)
Definition year4 (y : Z) : string :=
  String (digit (y / 1000)) (String (digit (y / 100))
    (String (digit (y / 10)) (String (digit y) EmptyString))).

(** [%Y]: the year with century as a decimal number.  [strftime] hands the
    directive to the C library, which prints the number without padding:
    a year below 1000 comes out on fewer than four digits. *)
Definition year_Y (y : Z) : string :=
  if (y <? 10)%Z then String (digit y) EmptyString
  else if (y <? 100)%Z then
    String (digit (y / 10)) (String (digit y) EmptyString)
  else if (y <? 1000)%Z then
    String (digit (y / 100))
      (String (digit (y / 10)) (String (digit y) EmptyString))
  else year4 y.

(** [d.strftime("%b %Y")]. *)
Definition strftime_bY (d : date) : string :=
  (month_abbr (month d) ++ " " ++ year_Y (year d))%string.

End Py.

Notation "x <- m ;; k" := (Py.bind m (fun x => k))
  (at level 61, m at next level, right associativity).

(** ** expense.py and person.py *)

Record Expense : Type := mkExpense {
  id : N;
  invoice_id : string;
  description : string;
  value : Q;
  expense_date : Py.date
}.

Record Person : Type := mkPerson {
  name : string;
  pays_for_two : bool;
  expenses : list Expense
}.

(** [Person.add_expense]. *)
Definition Person_add_expense (self : Person) (expense : Expense) : Person :=
  mkPerson (name self) (pays_for_two self) (expenses self ++ [expense]).

(** [Person.total_expenses]. *)
Definition Person_total_expenses (self : Person) : Q :=
  Py.sum (map value (expenses self)).

(** ** main.py: ExpenseManager *)

Record ExpenseManager : Type := mkManager { persons : list Person }.

(** A method: outcome and manager after the call. *)
Definition method (A : Type) : Type :=
  ExpenseManager -> Py.outcome A * ExpenseManager.

Definition already_exists (n : string) : string :=
  ("Person " ++ n ++ " already exists.")%string.

Definition add_person (n : string) (two : bool) : method unit :=
  fun self =>
    if existsb (fun person => String.eqb (name person) n) (persons self)
    then (Py.Raised (Py.ValueError (already_exists n)), self)
    else (Py.Returned tt, mkManager (persons self ++ [mkPerson n two []])).

(** The in-place [person.add_expense(expense)] on the first person whose
    name matches: the person object lives in [self.persons]. *)
Fixpoint add_to_first (n : string) (expense : Expense) (ps : list Person)
  : list Person :=
  match ps with
  | [] => []
  | p :: ps' =>
      if String.eqb (name p) n then Person_add_expense p expense :: ps'
      else p :: add_to_first n expense ps'
  end.

Definition add_expense (person_name : string) (uuid : N)
  (invoice : string) (descr : string) (v : Q) (d : Py.date) : method unit :=
  fun self =>
    match find (fun p => String.eqb (name p) person_name) (persons self) with
    | Some _ =>
        let expense := mkExpense uuid invoice descr v d in
        (Py.Returned tt, mkManager (add_to_first person_name expense (persons self)))
    | None => (Py.Returned tt, self)
    end.

Definition delete_person (n : string) : method unit :=
  fun self =>
    (Py.Returned tt,
     mkManager (filter (fun person => negb (String.eqb (name person) n))
                  (persons self))).

Definition erase_all_data : method unit :=
  fun _ => (Py.Returned tt, mkManager []).

(** [expense.expense_date.strftime("%b %Y").upper()]. *)
Definition month_key (expense : Expense) : string :=
  Py.upper (Py.strftime_bY (expense_date expense)).

(** The two statements of the inner loop body of [get_expenses_by_month]. *)
Definition bucket_add (by_month : Py.dict (list Expense)) (expense : Expense)
  : Py.dict (list Expense) :=
  let m := month_key expense in
  let by_month := if Py.contains by_month m then by_month
                  else Py.set by_month m [] in
  Py.update by_month m (fun l => l ++ [expense]).

Definition get_expenses_by_month (ps : list Person) : Py.dict (list Expense) :=
  fold_left (fun acc person => fold_left bucket_add (expenses person) acc)
    ps [].

(** [2 if person.pays_for_two else 1]. *)
Definition weight (person : Person) : Z :=
  if pays_for_two person then 2%Z else 1%Z.

(** A row [(person.name, total_paid, should_pay, difference)]. *)
Definition totals_row : Type := (string * Q * Q * Q)%type.

Definition row_name (r : totals_row) : string := fst (fst (fst r)).
Definition row_paid (r : totals_row) : Q := snd (fst (fst r)).
Definition row_should_pay (r : totals_row) : Q := snd (fst r).
Definition row_difference (r : totals_row) : Q := snd r.

Definition in_month (m : string) (expense : Expense) : bool :=
  String.eqb (month_key expense) m.

(** The inner loop of [calculate_totals] for one person. *)
Definition person_row (split_amount : Q) (m : string) (person : Person)
  : totals_row :=
  let total_paid :=
    Py.sum (map value (filter (in_month m) (expenses person))) in
  let should_pay := split_amount * inject_Z (weight person) in
  let difference := total_paid - should_pay in
  (name person, total_paid, should_pay, difference).

(** The body of the loop over months of [calculate_totals]. *)
Definition month_totals (ps : list Person) (m : string)
  (month_expenses : list Expense)
  : Py.outcome (list totals_row * Py.dict Q) :=
  let total_expenses := Py.sum (map value month_expenses) in
  let num_persons := Py.sum_int (map weight ps) in
  split_amount <- Py.truediv total_expenses num_persons ;;
  let totals := map (person_row split_amount m) ps in
  let balances :=
    fold_left (fun b r => Py.set b (row_name r) (row_difference r)) totals [] in
  Py.Returned (totals, balances).

Definition totals_result : Type :=
  (Py.dict (list totals_row) * Py.dict (Py.dict Q))%type.

Fixpoint totals_loop (ps : list Person)
  (items : list (string * list Expense)) (acc : totals_result)
  : Py.outcome totals_result :=
  match items with
  | [] => Py.Returned acc
  | (m, month_expenses) :: items' =>
      r <- month_totals ps m month_expenses ;;
      totals_loop ps items'
        (Py.set (fst acc) m (fst r), Py.set (snd acc) m (snd r))
  end.

Definition no_persons : string := "No persons available to calculate totals.".

Definition calculate_totals : method totals_result :=
  fun self =>
    match persons self with
    | [] => (Py.Raised (Py.ValueError no_persons), self)
    | _ :: _ =>
        (totals_loop (persons self) (get_expenses_by_month (persons self))
           ([], []), self)
    end.

(** *** Settlements *)

(** A pair [(name, amount)] of the creditor and debtor lists. *)
Definition party : Type := (string * Q)%type.

(** A triple [(debtor_name, creditor_name, amount)]. *)
Definition settlement : Type := (string * string * Q)%type.

Definition debtor_of (s : settlement) : string := fst (fst s).
Definition creditor_of (s : settlement) : string := snd (fst s).
Definition amount_of (s : settlement) : Q := snd s.

(** [l.sort(key=lambda x: x[1], reverse=True)]: descending by amount,
    entries of equal amount keep their order. *)
Fixpoint insert_desc (x : party) (l : list party) : list party :=
  match l with
  | [] => [x]
  | y :: l' =>
      if Py.Qlt_bool (snd x) (snd y) then y :: insert_desc x l'
      else x :: y :: l'
  end.

Definition sort_desc (l : list party) : list party :=
  fold_right insert_desc [] l.

Definition creditors_of (balances : Py.dict Q) : list party :=
  filter (fun nb => Py.Qlt_bool 0 (snd nb)) balances.

Definition debtors_of (balances : Py.dict Q) : list party :=
  map (fun nb => (fst nb, - snd nb))
    (filter (fun nb => Py.Qlt_bool (snd nb) 0) balances).

(** The variables of the [while] loop. *)
Record loop_state : Type := mkLoop {
  creditors : list party;
  debtors : list party;
  settlements : list settlement
}.

(** [while creditors and debtors]. *)
Definition loop_cond (st : loop_state) : bool :=
  match creditors st, debtors st with
  | _ :: _, _ :: _ => true
  | _, _ => false
  end.

(** One pass through the body of the [while] loop. *)
Definition loop_body (st : loop_state) : loop_state :=
  match creditors st, debtors st with
  | (creditor_name, creditor_balance) :: cs,
    (debtor_name, debtor_balance) :: ds =>
      let amount := Py.min creditor_balance debtor_balance in
      let out := settlements st ++ [(debtor_name, creditor_name, amount)] in
      if Py.Qlt_bool debtor_balance creditor_balance then
        mkLoop ((creditor_name, creditor_balance - amount) :: cs) ds out
      else if Py.Qlt_bool creditor_balance debtor_balance then
        mkLoop cs ((debtor_name, debtor_balance - amount) :: ds) out
      else mkLoop cs ds out
  | _, _ => st
  end.

Definition loop_size (st : loop_state) : nat :=
  (List.length (creditors st) + List.length (debtors st))%nat.

Equations while_loop (st : loop_state) : loop_state
  by wf (loop_size st) lt :=
  while_loop st with Logic.inspect (loop_cond st) := {
    | exist _ true running => while_loop (loop_body st)
    | exist _ false _ => st }.
Next Obligation.
  unfold loop_cond, loop_body, loop_size in *.
  destruct st as [[|[cn cb] cs] [|[dn db] ds] out]; simpl in *;
    try discriminate.
  destruct (Py.Qlt_bool db cb); [simpl; lia|].
  destruct (Py.Qlt_bool cb db); simpl; lia.
Qed.

(** The state in which [calculate_settlements] enters the [while] loop. *)
Definition initial_state (balances : Py.dict Q) : loop_state :=
  mkLoop (sort_desc (creditors_of balances)) (sort_desc (debtors_of balances))
    [].

(** The body of the loop over months of [calculate_settlements]. *)
Definition settle_month (balances : Py.dict Q) : list settlement :=
  settlements (while_loop (initial_state balances)).

Definition calculate_settlements (balances_by_month : Py.dict (Py.dict Q))
  : Py.dict (list settlement) :=
  fold_left (fun acc mb => Py.set acc (fst mb) (settle_month (snd mb)))
    balances_by_month [].

(** [calculate_totals] followed by [calculate_settlements], as the
    presentation layer calls them. *)
Definition settle_all (self : ExpenseManager) : Py.dict (list settlement) :=
  match fst (calculate_totals self) with
  | Py.Returned (_, balances_by_month) =>
      calculate_settlements balances_by_month
  | Py.Raised _ => []
  end.

(** *** Applying settlements to a balance map *)

(** The debtor pays [amount] to the creditor: the debtor's deficit and
    the creditor's surplus both shrink by [amount]. *)
Definition apply_settlement (balances : Py.dict Q) (s : settlement)
  : Py.dict Q :=
  let balances := Py.update balances (debtor_of s) (fun b => b + amount_of s) in
  Py.update balances (creditor_of s) (fun b => b - amount_of s).

Definition apply_settlements (ss : list settlement) (balances : Py.dict Q)
  : Py.dict Q :=
  fold_left apply_settlement ss balances.

Definition settled (balances : Py.dict Q) : Prop :=
  Forall (fun nb => snd nb == 0) balances.

(** ** Persistence: [to_dict], [from_dict], [save_data], [load_data] *)

(** The dictionary of [Expense.to_dict]; its keys are fixed and its values
    have the types of the annotations, so it is a record. *)
Record expense_dict : Type := mkExpenseDict {
  ed_id : string;
  ed_invoice_id : string;
  ed_description : string;
  ed_value : Q;
  ed_expense_date : string
}.

(** The dictionary of [Person.to_dict]. *)
Record person_dict : Type := mkPersonDict {
  pd_name : string;
  pd_pays_for_two : bool;
  pd_expenses : list expense_dict
}.

(** The functions of the Python library that the persistence code calls:
    [str(u)] and [uuid.UUID(s)] on UUIDs, and [date.fromisoformat(s)]. *)
Class Library : Type := {
  uuid_str : N -> string;
  uuid_UUID : string -> Py.outcome N;
  date_fromisoformat : string -> Py.outcome Py.date
}.

Definition is_leap (y : Z) : bool :=
  ((y mod 4 =? 0) && (negb (y mod 100 =? 0) || (y mod 400 =? 0)))%Z.

Definition days_in_month (y m : Z) : Z :=
  if (m =? 2)%Z then (if is_leap y then 29 else 28)%Z
  else if ((m =? 4) || (m =? 6) || (m =? 9) || (m =? 11))%Z then 30%Z
  else 31%Z.

(** The values a [datetime.date] can have. *)
Definition is_date (d : Py.date) : Prop :=
  (1 <= Py.year d <= 9999)%Z /\ (1 <= Py.month d <= 12)%Z
  /\ (1 <= Py.day d <= days_in_month (Py.year d) (Py.month d))%Z.

Definition two_digits (n : Z) : string :=
  String (Py.digit (n / 10)) (String (Py.digit n) EmptyString).

(** [d.isoformat()]: [YYYY-MM-DD]. *)
Definition isoformat (d : Py.date) : string :=
  (Py.year4 (Py.year d) ++ "-" ++ two_digits (Py.month d) ++ "-"
   ++ two_digits (Py.day d))%string.

(** What the library guarantees: both parsers read back what the
    formatters print. *)
Record LibraryLaws (L : Library) : Prop := {
  uuid_round_trip :
    forall u, (u < 2 ^ 128)%N -> uuid_UUID (uuid_str u) = Py.Returned u;
  date_round_trip :
    forall d, is_date d -> date_fromisoformat (isoformat d) = Py.Returned d
}.

(** A list comprehension whose element expression can raise: elements are
    evaluated in order and the first exception ends the comprehension. *)
Fixpoint traverse {A B} (f : A -> Py.outcome B) (l : list A)
  : Py.outcome (list B) :=
  match l with
  | [] => Py.Returned []
  | x :: l' =>
      y <- f x ;;
      ys <- traverse f l' ;;
      Py.Returned (y :: ys)
  end.

Definition Expense_to_dict {L : Library} (self : Expense) : expense_dict :=
  mkExpenseDict (uuid_str (id self)) (invoice_id self) (description self)
    (value self) (isoformat (expense_date self)).

(** [Expense.from_dict]: the date is parsed while the constructor call is
    evaluated, the identifier afterwards; the identifier drawn by the
    constructor is overwritten. *)
Definition Expense_from_dict {L : Library} (data : expense_dict)
  : Py.outcome Expense :=
  expense_date <- date_fromisoformat (ed_expense_date data) ;;
  uid <- uuid_UUID (ed_id data) ;;
  Py.Returned
    (mkExpense uid (ed_invoice_id data) (ed_description data) (ed_value data)
       expense_date).

Definition Person_to_dict {L : Library} (self : Person) : person_dict :=
  mkPersonDict (name self) (pays_for_two self)
    (map Expense_to_dict (expenses self)).

Definition Person_from_dict {L : Library} (data : person_dict)
  : Py.outcome Person :=
  es <- traverse Expense_from_dict (pd_expenses data) ;;
  Py.Returned (mkPerson (pd_name data) (pd_pays_for_two data) es).

(** The files: a path is absent or holds the JSON document that
    [json.dump] wrote, the list of the persons' dictionaries. *)
Definition files : Type := Py.dict (list person_dict).

(** [save_data]: the manager is only read. *)
Definition save_data {L : Library} (filepath : string)
  (self : ExpenseManager) (disk : files) : files :=
  Py.set disk filepath (map Person_to_dict (persons self)).

(** [load_data]: [self.persons] is assigned once the whole list has been
    built; a missing file gives an empty list. *)
Definition load_data {L : Library} (filepath : string) (disk : files)
  : method unit :=
  fun self =>
    match Py.get disk filepath with
    | Some data =>
        match traverse Person_from_dict data with
        | Py.Returned ps => (Py.Returned tt, mkManager ps)
        | Py.Raised e => (Py.Raised e, self)
        end
    | None => (Py.Returned tt, mkManager [])
    end.

Definition storable (e : Expense) : Prop :=
  (id e < 2 ^ 128)%N /\ is_date (expense_date e).

(** A library for the strings that the formatters print: identifiers in
    decimal, dates as ten characters. *)
Definition digit_value (c : ascii) : Z := (Z.of_N (N_of_ascii c) - 48)%Z.

Definition strict_fromisoformat (s : string) : Py.outcome Py.date :=
  match s with
  | String y3 (String y2 (String y1 (String y0 (String "-"
      (String m1 (String m0 (String "-"
         (String d1 (String d0 EmptyString))))))))) =>
      Py.Returned
        (Py.mkdate
           (1000 * digit_value y3 + 100 * digit_value y2
            + 10 * digit_value y1 + digit_value y0)
           (10 * digit_value m1 + digit_value m0)
           (10 * digit_value d1 + digit_value d0))
  | _ => Py.Raised (Py.ValueError "Invalid isoformat string")
  end.

Fixpoint unary (n : nat) : string :=
  match n with
  | O => EmptyString
  | S n' => String "1" (unary n')
  end.

Definition unary_library : Library := {|
  uuid_str := fun u => unary (N.to_nat u);
  uuid_UUID := fun s => Py.Returned (N.of_nat (String.length s));
  date_fromisoformat := strict_fromisoformat
|}.

(** ** The totals window of [ExpenseApp] *)

(** [d.get(k, default)]. *)
Definition get_default {V} (d : Py.dict V) (k : string) (default : V) : V :=
  match Py.get d k with
  | Some v => v
  | None => default
  end.

(** What [ExpenseApp.show_totals_for_month] computes for the window: the
    tree rows [(name, total_paid, difference)] with their colour tag, the
    total of the label and the settlements of the text box; or the text of
    the error box. *)
Inductive window : Type :=
| TotalsWindow (rows : list (string * Q * Q * string)) (total_expenses : Q)
    (shown : list settlement)
| ErrorBox (msg : string).

Definition tree_row (r : totals_row) : string * Q * Q * string :=
  let color := if Py.Qlt_bool 0 (row_difference r) then "green" else "red" in
  (row_name r, row_paid r, row_difference r, color).

Definition show_totals_for_month (m : string) (self : ExpenseManager)
  : Py.outcome window :=
  match fst (calculate_totals self) with
  | Py.Returned (totals_by_month, balances_by_month) =>
      let settlements_by_month := calculate_settlements balances_by_month in
      let totals := get_default totals_by_month m [] in
      let shown := get_default settlements_by_month m [] in
      Py.Returned
        (TotalsWindow (map tree_row totals) (Py.sum (map row_paid totals))
           shown)
  | Py.Raised (Py.ValueError msg) => Py.Returned (ErrorBox msg)
  | Py.Raised e => Py.Raised e
  end.

(** The participants have pairwise different names. *)
Definition unique_names (ps : list Person) : Prop := NoDup (map name ps).

(** The rows and the balance map that [calculate_totals] builds for the
    month [m] whose bucket is [es]. *)
Definition month_rows (ps : list Person) (m : string) (es : list Expense)
  : list totals_row :=
  map (person_row
         (Py.sum (map value es) / inject_Z (Py.sum_int (map weight ps))) m)
    ps.

Definition balances_of_rows (rows : list totals_row) : Py.dict Q :=
  fold_left (fun b r => Py.set b (row_name r) (row_difference r)) rows [].

(** ** Predicates of the statements *)

(** What the dictionary built from the expenses [es], taken in this order,
    holds: under each key the expenses of that month, in order, and no key
    for a month without expense. *)
Definition grouped (es : list Expense) (g : Py.dict (list Expense)) : Prop :=
  Py.dict_wf g /\
  forall k, Py.get g k = match filter (in_month k) es with
                         | [] => None
                         | l => Some l
                         end.

Definition is_upper (c : ascii) : bool :=
  let n := nat_of_ascii c in ((65 <=? n) && (n <=? 90))%nat.

Definition is_digit (c : ascii) : bool :=
  let n := nat_of_ascii c in ((48 <=? n) && (n <=? 57))%nat.

Definition chars (s : string) : list ascii := list_ascii_of_string s.

(** What is still owed to (or by) [n] in a creditor (or debtor) list. *)
Definition owed (l : list party) (n : string) : Q :=
  Py.sum (map snd (filter (fun p => String.eqb (fst p) n) l)).

(** What [n] pays, and receives, over a list of settlements. *)
Definition paid (ss : list settlement) (n : string) : Q :=
  Py.sum (map amount_of (filter (fun s => String.eqb (debtor_of s) n) ss)).

Definition received (ss : list settlement) (n : string) : Q :=
  Py.sum (map amount_of (filter (fun s => String.eqb (creditor_of s) n) ss)).

Definition total (l : list party) : Q := Py.sum (map snd l).

Definition positive (l : list party) : Prop := Forall (fun p => 0 < snd p) l.

Definition names (l : list party) : list string := map fst l.

Definition share (k n : string) (a : Q) : Q := if String.eqb k n then a else 0.

(** A settlement between a creditor of [cnames] and a debtor of [dnames]. *)
Definition fair (cnames dnames : list string) (s : settlement) : Prop :=
  0 < amount_of s /\ In (creditor_of s) cnames /\ In (debtor_of s) dnames.

Definition parties_inv (cnames dnames : list string) (st : loop_state) : Prop :=
  positive (creditors st) /\ positive (debtors st)
  /\ incl (names (creditors st)) cnames /\ incl (names (debtors st)) dnames
  /\ Forall (fair cnames dnames) (settlements st).

(** What the settlements made so far and the two lists account for,
    [cs0] and [ds0] being the lists at the entry of the loop. *)
Definition accounts_inv (cs0 ds0 : list party) (st : loop_state) : Prop :=
  (forall n, received (settlements st) n + owed (creditors st) n
             == owed cs0 n)
  /\ (forall n, paid (settlements st) n + owed (debtors st) n == owed ds0 n)
  /\ total (creditors st) == total (debtors st).

Definition count_inv (size0 : nat) (st : loop_state) : Prop :=
  (settlements st = [] /\ loop_size st = size0)
  \/ (List.length (settlements st) + Nat.max (loop_size st) 1 <= size0)%nat.

(** What the settlements made so far account for, without any
    assumption on the balances: per name, and in total. *)
Definition transfers_inv (cs0 ds0 : list party) (st : loop_state) : Prop :=
  (forall n, received (settlements st) n + owed (creditors st) n
             == owed cs0 n)
  /\ (forall n, paid (settlements st) n + owed (debtors st) n == owed ds0 n)
  /\ Py.sum (map amount_of (settlements st)) + total (creditors st)
     == total cs0
  /\ Py.sum (map amount_of (settlements st)) + total (debtors st)
     == total ds0.

(** A balance that moved towards zero without passing it. *)
Definition towards_zero (old new : string * Q) : Prop :=
  fst new = fst old
  /\ (0 <= snd old -> 0 <= snd new <= snd old)
  /\ (snd old <= 0 -> snd old <= snd new <= 0).

(** [l] is in descending order of amount. *)
Fixpoint descending (l : list party) : Prop :=
  match l with
  | [] => True
  | x :: l' => Forall (fun y => snd y <= snd x) l' /\ descending l'
  end.

(** ** Concrete ledgers *)

Definition ymd (y m dd : Z) : Py.date := Py.mkdate y m dd.

Definition run {A} (m : method A) (self : ExpenseManager) : ExpenseManager :=
  snd (m self).

(** Alice (weight 1) and Bob (weight 2); Alice pays 90 in March 2024. *)
Definition alice_bob : ExpenseManager :=
  run (add_expense "Alice" 1%N "inv-1" "rent" 90 (ymd 2024 3 15))
    (run (add_person "Bob" true)
       (run (add_person "Alice" false) (mkManager []))).

(** A, B and C of weight 1; A pays 100 and B pays 50 in the same month. *)
Definition three_equal : ExpenseManager :=
  run (add_expense "B" 2%N "inv-2" "food" 50 (ymd 2024 3 1))
    (run (add_expense "A" 1%N "inv-1" "rent" 100 (ymd 2024 3 15))
       (run (add_person "C" false)
          (run (add_person "B" false)
             (run (add_person "A" false) (mkManager []))))).

(** Two expenses in March 2024 and one in April 2024. *)
Definition two_months : ExpenseManager :=
  run (add_expense "A" 3%N "inv-3" "gas" 30 (ymd 2024 4 1))
    (run (add_expense "A" 2%N "inv-2" "food" 20 (ymd 2024 3 1))
       (run (add_expense "B" 1%N "inv-1" "rent" 10 (ymd 2024 3 15))
          (run (add_person "B" false)
             (run (add_person "A" false) (mkManager []))))).

(** Two participants of the same name, as a renaming in the application
    or an edited file can produce. *)
Definition same_name_twice : ExpenseManager :=
  mkManager
    [mkPerson "A" false [mkExpense 1%N "inv-1" "rent" 100 (ymd 2024 3 1)];
     mkPerson "B" false [mkExpense 2%N "inv-2" "food" 50 (ymd 2024 3 2)];
     mkPerson "A" false []].

(** Two creditors and three debtors on which the greedy loop is not
    optimal. *)
Definition five_balances : Py.dict Q :=
  [("A", 6); ("B", 3); ("C", -(5)); ("D", -(3)); ("E", -(1))].

Definition four_balances : Py.dict Q :=
  [("A", 30); ("B", 20); ("C", -(25)); ("D", -(25))].

(** ** Ledger mutations *)

Section Ledger.

Variable n : string.

Let named (p : Person) : bool := String.eqb (name p) n.

Lemma existsb_named_true (ps : list Person) :
  (exists p, In p ps /\ name p = n) -> existsb named ps = true.
Proof.
  intros [p [Hin Hn]]. apply existsb_exists. exists p. split; [exact Hin|].
  unfold named. now apply String.eqb_eq.
Qed.

Lemma existsb_named_false (ps : list Person) :
  (forall p, In p ps -> name p <> n) -> existsb named ps = false.
Proof.
  intros H. destruct (existsb named ps) eqn:E; [|reflexivity].
  apply existsb_exists in E. destruct E as [p [Hin Hp]].
  apply String.eqb_eq in Hp. now elim (H p Hin).
Qed.

Lemma find_named_none (ps : list Person) :
  (forall p, In p ps -> name p <> n) -> find named ps = None.
Proof.
  induction ps as [|p ps IH]; intros H; simpl; [reflexivity|].
  unfold named at 1. destruct (String.eqb_spec (name p) n) as [E|E].
  - elim (H p (or_introl eq_refl) E).
  - apply IH. intros q Hq. apply H. now right.
Qed.

Lemma find_named_split (before after : list Person) (p : Person) :
  name p = n -> exists q, find named (before ++ p :: after) = Some q.
Proof.
  intros Hp. induction before as [|b before IH]; simpl.
  - unfold named. rewrite Hp, String.eqb_refl. now exists p.
  - destruct (named b); [now exists b | exact IH].
Qed.

Lemma add_to_first_split (e : Expense) (before after : list Person)
  (p : Person) :
  name p = n -> (forall q, In q before -> name q <> n) ->
  add_to_first n e (before ++ p :: after)
  = before ++ Person_add_expense p e :: after.
Proof.
  intros Hp. induction before as [|b before IH]; intros Hb; simpl.
  - now rewrite Hp, String.eqb_refl.
  - destruct (String.eqb_spec (name b) n) as [E|E].
    + elim (Hb b (or_introl eq_refl) E).
    + f_equal. apply IH. intros q Hq. apply Hb. now right.
Qed.

Lemma filter_not_named_id (ps : list Person) :
  (forall p, In p ps -> name p <> n) ->
  filter (fun p => negb (named p)) ps = ps.
Proof.
  induction ps as [|p ps IH]; intros H; simpl; [reflexivity|].
  unfold named at 1. destruct (String.eqb_spec (name p) n) as [E|E]; simpl.
  - elim (H p (or_introl eq_refl) E).
  - f_equal. apply IH. intros q Hq. apply H. now right.
Qed.

End Ledger.

(** C6. [add_person] on a name some participant already has (exact,
    case-sensitive match) raises the duplicate-name [ValueError] and leaves
    the manager as it was; on a name no participant has it returns and the
    collection is the old one followed by a new participant with no
    expenses. *)
Theorem add_person_duplicate_or_append (n : string) (two : bool)
  (self : ExpenseManager) :
  ((exists p, In p (persons self) /\ name p = n) ->
   add_person n two self
   = (Py.Raised (Py.ValueError (already_exists n)), self))
  /\
  ((forall p, In p (persons self) -> name p <> n) ->
   add_person n two self
   = (Py.Returned tt, mkManager (persons self ++ [mkPerson n two []]))).
Proof.
  unfold add_person. split; intros H.
  - now rewrite (existsb_named_true n _ H).
  - now rewrite (existsb_named_false n _ H).
Qed.

Lemma add_person_duplicate_or_append_witness :
  add_person "Alice" true alice_bob
  = (Py.Raised (Py.ValueError "Person Alice already exists."), alice_bob)
  /\ List.length (persons (run (add_person "Alice" true) alice_bob)) = 2%nat
  /\ add_person "alice" true alice_bob
     = (Py.Returned tt,
        mkManager (persons alice_bob ++ [mkPerson "alice" true []])).
Proof.
  destruct (add_person_duplicate_or_append "Alice" true alice_bob) as [Hdup _].
  destruct (add_person_duplicate_or_append "alice" true alice_bob) as [_ Hnew].
  split; [|split].
  - apply Hdup. eexists. split; [left; reflexivity | reflexivity].
  - unfold run. rewrite Hdup; [reflexivity|].
    eexists. split; [left; reflexivity | reflexivity].
  - apply Hnew. intros p [Hp | [Hp | []]]; subst p; discriminate.
Defined.

(** C7. [add_expense] on a name that no participant has returns without
    raising and leaves the manager as it was; on a name that resolves, the
    new expense goes to the end of the expense sequence of the first
    participant of that name, and every other participant is untouched. *)
Theorem add_expense_noop_or_append (person_name : string) (uuid : N)
  (invoice descr : string) (v : Q) (dt : Py.date) (self : ExpenseManager) :
  ((forall p, In p (persons self) -> name p <> person_name) ->
   add_expense person_name uuid invoice descr v dt self
   = (Py.Returned tt, self))
  /\
  (forall before p after,
     persons self = before ++ p :: after ->
     name p = person_name ->
     (forall q, In q before -> name q <> person_name) ->
     add_expense person_name uuid invoice descr v dt self
     = (Py.Returned tt,
        mkManager
          (before
           ++ mkPerson (name p) (pays_for_two p)
                (expenses p ++ [mkExpense uuid invoice descr v dt])
           :: after))).
Proof.
  unfold add_expense. split.
  - intros H. now rewrite (find_named_none person_name _ H).
  - intros before p after Hsplit Hp Hbefore. rewrite Hsplit.
    destruct (find_named_split person_name before after p Hp) as [q ->].
    now rewrite (add_to_first_split person_name _ before after p Hp Hbefore).
Qed.

Lemma add_expense_noop_or_append_witness :
  add_expense "Carol" 7%N "inv-7" "gift" 12 (ymd 2024 5 2) alice_bob
  = (Py.Returned tt, alice_bob)
  /\ persons
       (run (add_expense "Bob" 7%N "inv-7" "gift" 12 (ymd 2024 5 2)) alice_bob)
     = [mkPerson "Alice" false
          [mkExpense 1%N "inv-1" "rent" 90 (ymd 2024 3 15)];
        mkPerson "Bob" true
          [mkExpense 7%N "inv-7" "gift" 12 (ymd 2024 5 2)]].
Proof.
  split.
  - apply (add_expense_noop_or_append "Carol" 7%N "inv-7" "gift" 12
             (ymd 2024 5 2) alice_bob).
    intros p [Hp | [Hp | []]]; subst p; discriminate.
  - unfold run.
    rewrite (proj2 (add_expense_noop_or_append "Bob" 7%N "inv-7" "gift" 12
                      (ymd 2024 5 2) alice_bob)
               [mkPerson "Alice" false
                  [mkExpense 1%N "inv-1" "rent" 90 (ymd 2024 3 15)]]
               (mkPerson "Bob" true []) []).
    + reflexivity.
    + reflexivity.
    + reflexivity.
    + intros q [Hq | []]; subst q; discriminate.
Defined.

(** C10. [delete_person] returns without raising; the participants left
    are exactly those of another name, each of them unchanged and in the
    same order (deletion distributes over concatenation and keeps or drops
    a single participant by name alone); when no participant has the name
    the manager is unchanged. *)
Theorem delete_person_removes_exactly (n : string) (self : ExpenseManager) :
  fst (delete_person n self) = Py.Returned tt
  /\ (forall p, In p (persons (run (delete_person n) self))
                <-> In p (persons self) /\ name p <> n)
  /\ (forall l1 l2,
        persons (run (delete_person n) (mkManager (l1 ++ l2)))
        = persons (run (delete_person n) (mkManager l1))
          ++ persons (run (delete_person n) (mkManager l2)))
  /\ (forall p,
        (name p = n -> run (delete_person n) (mkManager [p]) = mkManager [])
        /\ (name p <> n ->
            run (delete_person n) (mkManager [p]) = mkManager [p]))
  /\ ((forall p, In p (persons self) -> name p <> n) ->
      delete_person n self = (Py.Returned tt, self)).
Proof.
  unfold delete_person, run; simpl.
  split; [reflexivity|]. split; [|split; [|split]].
  - intros p. rewrite filter_In. split; intros [Hin Hn]; (split; [exact Hin|]).
    + intros E. apply String.eqb_eq in E. now rewrite E in Hn.
    + now destruct (String.eqb_spec (name p) n).
  - intros l1 l2. apply filter_app.
  - intros p. split; intros E.
    + now rewrite E, String.eqb_refl.
    + now destruct (String.eqb_spec (name p) n).
  - intros H. rewrite (filter_not_named_id n _ H). now destruct self.
Qed.

Lemma delete_person_removes_exactly_witness :
  delete_person "Carol" alice_bob = (Py.Returned tt, alice_bob)
  /\ persons (run (delete_person "Alice") alice_bob)
     = [mkPerson "Bob" true []].
Proof.
  split.
  - apply (delete_person_removes_exactly "Carol" alice_bob).
    intros p [Hp | [Hp | []]]; subst p; discriminate.
  - reflexivity.
Defined.

(** ** Dictionaries *)

Section Dict.

Context {V : Type}.
Implicit Types (d : Py.dict V) (k : string) (v : V).

Lemma get_update d k f k' :
  Py.get (Py.update d k f) k'
  = if String.eqb k k' then option_map f (Py.get d k') else Py.get d k'.
Proof.
  induction d as [|[k0 v0] d IH]; simpl.
  - now destruct (String.eqb k k').
  - destruct (String.eqb_spec k0 k) as [E|E]; simpl.
    + subst k0. destruct (String.eqb_spec k k') as [E'|E']; [reflexivity|].
      exact IH.
    + destruct (String.eqb_spec k0 k') as [E'|E']; [|exact IH].
      subst k0. destruct (String.eqb_spec k k') as [E''|_]; [|reflexivity].
      now elim E.
Qed.

Lemma keys_update d k f : Py.keys (Py.update d k f) = Py.keys d.
Proof.
  unfold Py.keys, Py.update. rewrite map_map. apply map_ext.
  intros [k0 v0]; simpl. now destruct (String.eqb k0 k).
Qed.

Lemma get_set d k v k' :
  Py.get (Py.set d k v) k'
  = if String.eqb k k' then Some v else Py.get d k'.
Proof.
  induction d as [|[k0 v0] d IH]; simpl; [reflexivity|].
  destruct (String.eqb_spec k0 k) as [E|E]; simpl.
  - subst k0. now destruct (String.eqb k k').
  - destruct (String.eqb_spec k0 k') as [E'|E']; [|exact IH].
    subst k0. destruct (String.eqb_spec k k') as [E''|_]; [|reflexivity].
    now elim E.
Qed.

Lemma get_none d k : Py.get d k = None <-> ~ In k (Py.keys d).
Proof.
  induction d as [|[k0 v0] d IH]; simpl; [tauto|].
  destruct (String.eqb_spec k0 k) as [E|E].
  - split; [discriminate | intros H; elim H; now left].
  - rewrite IH. tauto.
Qed.

Lemma get_none_in_keys d k : Py.get d k <> None -> In k (Py.keys d).
Proof.
  intros H. destruct (in_dec string_dec k (Py.keys d)) as [I|I];
    [exact I|]. now apply get_none in I.
Qed.

Lemma keys_set d k v :
  Py.keys (Py.set d k v)
  = if Py.contains d k then Py.keys d else Py.keys d ++ [k].
Proof.
  unfold Py.contains. induction d as [|[k0 v0] d IH]; simpl; [reflexivity|].
  destruct (String.eqb_spec k0 k) as [E|E]; simpl; [reflexivity|].
  rewrite IH. now destruct (Py.get d k).
Qed.

Lemma get_in d k v : Py.get d k = Some v -> In (k, v) d.
Proof.
  induction d as [|[k0 v0] d IH]; simpl; [discriminate|].
  destruct (String.eqb_spec k0 k) as [E|E].
  - intros [= ->]. subst k0. now left.
  - intros H. right. now apply IH.
Qed.

Lemma in_get d k v : Py.dict_wf d -> In (k, v) d -> Py.get d k = Some v.
Proof.
  unfold Py.dict_wf. induction d as [|[k0 v0] d IH]; simpl; [tauto|].
  intros Hwf [H|H]; inversion Hwf as [|? ? Hk Hd]; subst.
  - injection H as -> ->. now rewrite String.eqb_refl.
  - destruct (String.eqb_spec k0 k) as [E|E]; [|now apply IH].
    subst k0. elim Hk. change k with (fst (k, v)). now apply in_map.
Qed.

Lemma set_wf d k v : Py.dict_wf d -> Py.dict_wf (Py.set d k v).
Proof.
  unfold Py.dict_wf. rewrite keys_set. unfold Py.contains.
  destruct (Py.get d k) eqn:E; [tauto|]. intros H.
  apply get_none in E. apply NoDup_app; [exact H| |].
  - repeat constructor. intros [].
  - intros x Hx [Hk|[]]. subst x. now elim E.
Qed.

End Dict.

(** ** Sums *)

Lemma fold_left_Qplus (l : list Q) (a : Q) :
  fold_left Qplus l a == a + Py.sum l.
Proof.
  unfold Py.sum. revert a. induction l as [|x l IH]; intros a; simpl.
  - ring.
  - rewrite (IH (a + x)), (IH (0 + x)). ring.
Qed.

Lemma sum_cons (x : Q) (l : list Q) : Py.sum (x :: l) == x + Py.sum l.
Proof. unfold Py.sum at 1. simpl. rewrite fold_left_Qplus. ring. Qed.

Lemma sum_app (l1 l2 : list Q) : Py.sum (l1 ++ l2) == Py.sum l1 + Py.sum l2.
Proof.
  induction l1 as [|x l1 IH]; simpl.
  - unfold Py.sum at 2. simpl. ring.
  - rewrite !sum_cons, IH. ring.
Qed.

Lemma fold_left_Zadd (l : list Z) (a : Z) :
  fold_left Z.add l a = (a + Py.sum_int l)%Z.
Proof.
  unfold Py.sum_int. revert a. induction l as [|x l IH]; intros a; simpl.
  - lia.
  - rewrite (IH (a + x)%Z), (IH x). lia.
Qed.

Lemma sum_int_cons (x : Z) (l : list Z) :
  Py.sum_int (x :: l) = (x + Py.sum_int l)%Z.
Proof. unfold Py.sum_int at 1. simpl. now rewrite fold_left_Zadd. Qed.

Lemma weight_pos (p : Person) : (1 <= weight p)%Z.
Proof. unfold weight. destruct (pays_for_two p); lia. Qed.

Lemma total_weight_nonneg (ps : list Person) :
  (0 <= Py.sum_int (map weight ps))%Z.
Proof.
  induction ps as [|p ps IH]; simpl; [reflexivity|].
  rewrite sum_int_cons. pose proof (weight_pos p). lia.
Qed.

Lemma total_weight_pos (ps : list Person) :
  ps <> [] -> (1 <= Py.sum_int (map weight ps))%Z.
Proof.
  destruct ps as [|p ps]; [congruence|]. intros _. simpl.
  rewrite sum_int_cons.
  pose proof (weight_pos p). pose proof (total_weight_nonneg ps). lia.
Qed.

(** ** Monthly grouping *)

Lemma grouped_nil : grouped [] [].
Proof. split; [constructor | reflexivity]. Qed.

Lemma bucket_add_grouped (es : list Expense) (g : Py.dict (list Expense))
  (e : Expense) :
  grouped es g -> grouped (es ++ [e]) (bucket_add g e).
Proof.
  intros [Hwf Hget]. unfold bucket_add. split.
  - unfold Py.dict_wf. rewrite keys_update.
    destruct (Py.contains g (month_key e)); [exact Hwf|].
    now apply set_wf.
  - intros k. rewrite get_update, filter_app. simpl.
    change (in_month k e) with (String.eqb (month_key e) k).
    destruct (String.eqb_spec (month_key e) k) as [E|E].
    + subst k. unfold Py.contains. specialize (Hget (month_key e)).
      destruct (Py.get g (month_key e)) as [l|] eqn:G.
      * rewrite G. simpl.
        destruct (filter (in_month (month_key e)) es) as [|x xs];
          [discriminate|].
        now injection Hget as ->.
      * rewrite get_set, String.eqb_refl. simpl.
        destruct (filter (in_month (month_key e)) es); [reflexivity|].
        discriminate.
    + rewrite app_nil_r.
      destruct (Py.contains g (month_key e)); [apply Hget|].
      rewrite get_set.
      destruct (String.eqb_spec (month_key e) k); [contradiction | apply Hget].
Qed.

Lemma fold_bucket_add_grouped (l es : list Expense)
  (g : Py.dict (list Expense)) :
  grouped es g -> grouped (es ++ l) (fold_left bucket_add l g).
Proof.
  revert es g. induction l as [|e l IH]; intros es g H; simpl.
  - now rewrite app_nil_r.
  - replace (es ++ e :: l) with ((es ++ [e]) ++ l)
      by (now rewrite <- app_assoc).
    apply IH. now apply bucket_add_grouped.
Qed.

Lemma get_expenses_by_month_grouped (ps : list Person) :
  grouped (flat_map expenses ps) (get_expenses_by_month ps).
Proof.
  unfold get_expenses_by_month.
  enough (H : forall es g, grouped es g ->
            grouped (es ++ flat_map expenses ps)
              (fold_left (fun acc person =>
                            fold_left bucket_add (expenses person) acc) ps g))
    by (apply (H [] []), grouped_nil).
  induction ps as [|p ps IH]; intros es g H; simpl.
  - now rewrite app_nil_r.
  - rewrite app_assoc. apply IH. now apply fold_bucket_add_grouped.
Qed.

Lemma grouped_in (es : list Expense) (g : Py.dict (list Expense))
  (k : string) (l : list Expense) :
  grouped es g -> In (k, l) g -> l = filter (in_month k) es /\ l <> [].
Proof.
  intros [Hwf Hget] Hin. apply (in_get _ _ _ Hwf) in Hin.
  rewrite Hget in Hin.
  destruct (filter (in_month k) es); [discriminate|].
  injection Hin as <-. split; [reflexivity | discriminate].
Qed.

(** *** The month key *)

Lemma month_abbr_cases (m : Z) :
  (1 <= m <= 12)%Z ->
  m = 1%Z \/ m = 2%Z \/ m = 3%Z \/ m = 4%Z \/ m = 5%Z \/ m = 6%Z \/
  m = 7%Z \/ m = 8%Z \/ m = 9%Z \/ m = 10%Z \/ m = 11%Z \/ m = 12%Z.
Proof. lia. Qed.

Lemma digit_is_digit (n : Z) : is_digit (Py.digit n) = true.
Proof.
  unfold Py.digit.
  assert (H : (0 <= n mod 10 < 10)%Z) by (apply Z.mod_pos_bound; lia).
  assert (C : (n mod 10 = 0 \/ n mod 10 = 1 \/ n mod 10 = 2 \/
               n mod 10 = 3 \/ n mod 10 = 4 \/ n mod 10 = 5 \/
               n mod 10 = 6 \/ n mod 10 = 7 \/ n mod 10 = 8 \/
               n mod 10 = 9)%Z) by lia.
  repeat (destruct C as [-> | C]; [reflexivity|]). now rewrite C.
Qed.

Lemma digit_inj (a b : Z) :
  Py.digit a = Py.digit b -> (a mod 10 = b mod 10)%Z.
Proof.
  unfold Py.digit. intros H.
  assert (Ha : (0 <= a mod 10 < 10)%Z) by (apply Z.mod_pos_bound; lia).
  assert (Hb : (0 <= b mod 10 < 10)%Z) by (apply Z.mod_pos_bound; lia).
  apply (f_equal N_of_ascii) in H.
  rewrite !N_ascii_embedding in H by lia.
  lia.
Qed.

Lemma year4_inj (y y' : Z) :
  (0 <= y < 10000)%Z -> (0 <= y' < 10000)%Z ->
  Py.year4 y = Py.year4 y' -> y = y'.
Proof.
  unfold Py.year4. intros Hy Hy' H.
  assert (E3 : Py.digit (y / 1000) = Py.digit (y' / 1000)) by congruence.
  assert (E2 : Py.digit (y / 100) = Py.digit (y' / 100)) by congruence.
  assert (E1 : Py.digit (y / 10) = Py.digit (y' / 10)) by congruence.
  assert (E0 : Py.digit y = Py.digit y') by congruence.
  apply digit_inj in E3, E2, E1, E0. clear H.
  Z.to_euclidean_division_equations. lia.
Qed.

Lemma upper_app (s t : string) :
  Py.upper (s ++ t) = (Py.upper s ++ Py.upper t)%string.
Proof. induction s as [|c s IH]; simpl; [reflexivity | now rewrite IH]. Qed.

Lemma upper_digit (n : Z) : Py.upper_ascii (Py.digit n) = Py.digit n.
Proof.
  pose proof (digit_is_digit n) as H. unfold is_digit in H.
  unfold Py.upper_ascii.
  destruct (nat_of_ascii (Py.digit n) <=? 57)%nat eqn:E;
    [|now rewrite andb_false_r in H].
  apply Nat.leb_le in E.
  destruct (97 <=? nat_of_ascii (Py.digit n))%nat eqn:E'; [|reflexivity].
  apply Nat.leb_le in E'. lia.
Qed.

Lemma upper_year4 (y : Z) : Py.upper (Py.year4 y) = Py.year4 y.
Proof. unfold Py.year4. simpl. now rewrite !upper_digit. Qed.

Lemma year_Y_from_1000 (y : Z) : (1000 <= y)%Z -> Py.year_Y y = Py.year4 y.
Proof.
  intros H. unfold Py.year_Y.
  destruct (Z.ltb_spec y 10); [lia|].
  destruct (Z.ltb_spec y 100); [lia|].
  destruct (Z.ltb_spec y 1000); [lia|]. reflexivity.
Qed.

Lemma upper_year_Y (y : Z) : Py.upper (Py.year_Y y) = Py.year_Y y.
Proof.
  unfold Py.year_Y.
  destruct (y <? 10)%Z; [simpl; now rewrite !upper_digit|].
  destruct (y <? 100)%Z; [simpl; now rewrite !upper_digit|].
  destruct (y <? 1000)%Z; [simpl; now rewrite !upper_digit|].
  apply upper_year4.
Qed.

Lemma year_Y_inj (y y' : Z) :
  (0 <= y < 10000)%Z -> (0 <= y' < 10000)%Z ->
  Py.year_Y y = Py.year_Y y' -> y = y'.
Proof.
  unfold Py.year_Y, Py.year4. intros Hy Hy' H.
  destruct (Z.ltb_spec y 10); destruct (Z.ltb_spec y' 10);
    [|destruct (Z.ltb_spec y' 100); [|destruct (Z.ltb_spec y' 1000)];
      apply (f_equal String.length) in H; discriminate H
     |destruct (Z.ltb_spec y 100); [|destruct (Z.ltb_spec y 1000)];
      apply (f_equal String.length) in H; discriminate H|].
  - assert (E0 : Py.digit y = Py.digit y') by congruence.
    apply digit_inj in E0. Z.to_euclidean_division_equations. lia.
  - destruct (Z.ltb_spec y 100); destruct (Z.ltb_spec y' 100);
      [|destruct (Z.ltb_spec y' 1000);
        apply (f_equal String.length) in H; discriminate H
       |destruct (Z.ltb_spec y 1000);
        apply (f_equal String.length) in H; discriminate H|].
    + assert (E1 : Py.digit (y / 10) = Py.digit (y' / 10)) by congruence.
      assert (E0 : Py.digit y = Py.digit y') by congruence.
      apply digit_inj in E1, E0. clear H.
      Z.to_euclidean_division_equations. lia.
    + destruct (Z.ltb_spec y 1000); destruct (Z.ltb_spec y' 1000);
        [|apply (f_equal String.length) in H; discriminate H
         |apply (f_equal String.length) in H; discriminate H|].
      * assert (E2 : Py.digit (y / 100) = Py.digit (y' / 100))
          by congruence.
        assert (E1 : Py.digit (y / 10) = Py.digit (y' / 10)) by congruence.
        assert (E0 : Py.digit y = Py.digit y') by congruence.
        apply digit_inj in E2, E1, E0. clear H.
        Z.to_euclidean_division_equations. lia.
      * now apply year4_inj.
Qed.

Lemma month_key_unfold (e : Expense) :
  month_key e
  = (Py.upper (Py.month_abbr (Py.month (expense_date e))) ++ " "
     ++ Py.year_Y (Py.year (expense_date e)))%string.
Proof.
  unfold month_key, Py.strftime_bY.
  now rewrite !upper_app, upper_year_Y.
Qed.

Lemma month_name_shape (m : Z) :
  (1 <= m <= 12)%Z ->
  String.length (Py.upper (Py.month_abbr m)) = 3%nat
  /\ forallb is_upper (chars (Py.upper (Py.month_abbr m))) = true.
Proof.
  intros H. apply month_abbr_cases in H.
  repeat (destruct H as [-> | H]; [split; reflexivity|]).
  subst m. split; reflexivity.
Qed.

Lemma year4_shape (y : Z) :
  String.length (Py.year4 y) = 4%nat
  /\ forallb is_digit (chars (Py.year4 y)) = true.
Proof.
  split; [reflexivity|]. unfold Py.year4, chars. simpl.
  now rewrite !digit_is_digit.
Qed.

Lemma year_Y_shape (y : Z) :
  (1 <= String.length (Py.year_Y y) <= 4)%nat
  /\ ((1000 <= y)%Z -> String.length (Py.year_Y y) = 4%nat)
  /\ ((y < 1000)%Z -> (String.length (Py.year_Y y) < 4)%nat)
  /\ forallb is_digit (chars (Py.year_Y y)) = true.
Proof.
  unfold Py.year_Y.
  destruct (Z.ltb_spec y 10);
    [|destruct (Z.ltb_spec y 100); [|destruct (Z.ltb_spec y 1000)]];
    (split; [simpl; lia|]); (split; [intros; first [lia | reflexivity]|]);
    (split; [intros; simpl; lia|]);
    unfold Py.year4, chars; simpl; now rewrite !digit_is_digit.
Qed.

Ltac each_month H :=
  apply month_abbr_cases in H;
  repeat (destruct H as [H | H]; [rewrite H in *; clear H|]);
  [..| rewrite H in *; clear H].

Lemma month_name_inj (m1 m2 : Z) :
  (1 <= m1 <= 12)%Z -> (1 <= m2 <= 12)%Z ->
  Py.upper (Py.month_abbr m1) = Py.upper (Py.month_abbr m2) -> m1 = m2.
Proof.
  intros H1 H2. each_month H1; each_month H2; intros H;
    first [reflexivity | cbv in H; discriminate H].
Qed.

Lemma month_key_prefix (m : Z) (s : string) :
  (1 <= m <= 12)%Z ->
  substring 0 3 (Py.upper (Py.month_abbr m) ++ " " ++ s)
  = Py.upper (Py.month_abbr m).
Proof. intros H. each_month H; reflexivity. Qed.

Lemma month_key_suffix (m y : Z) :
  (1 <= m <= 12)%Z ->
  substring 4 4 (Py.upper (Py.month_abbr m) ++ " " ++ Py.year_Y y)
  = Py.year_Y y.
Proof.
  intros H. unfold Py.year_Y, Py.year4.
  destruct (y <? 10)%Z;
    [|destruct (y <? 100)%Z; [|destruct (y <? 1000)%Z]];
    each_month H; reflexivity.
Qed.

Lemma month_key_same_month (e1 e2 : Expense) :
  Py.valid_date (expense_date e1) -> Py.valid_date (expense_date e2) ->
  (month_key e1 = month_key e2
   <-> Py.year (expense_date e1) = Py.year (expense_date e2)
       /\ Py.month (expense_date e1) = Py.month (expense_date e2)).
Proof.
  intros [Hy1 [Hm1 _]] [Hy2 [Hm2 _]]. rewrite !month_key_unfold. split.
  - intros H. split.
    + apply (f_equal (substring 4 4)) in H.
      rewrite !month_key_suffix in H by assumption.
      apply year_Y_inj; [lia | lia | exact H].
    + apply (f_equal (substring 0 3)) in H.
      rewrite !month_key_prefix in H by assumption.
      now apply month_name_inj.
  - intros [-> ->]. reflexivity.
Qed.

Lemma string_length_app (s t : string) :
  String.length (s ++ t) = (String.length s + String.length t)%nat.
Proof. induction s as [|c s IH]; simpl; [reflexivity | now rewrite IH]. Qed.

(** C8, the year is not always on four digits: an expense dated
    0999-01-05 is filed under the key "JAN 999", seven characters long,
    which is not a three-letter month, a space and a four-digit year. *)
Lemma month_key_year_below_1000 :
  let e := mkExpense 1%N "inv-1" "rent" 10 (ymd 999 1 5) in
  Py.valid_date (expense_date e)
  /\ month_key e = "JAN 999"
  /\ get_expenses_by_month [mkPerson "Ana" false [e]] = [("JAN 999", [e])]
  /\ ~ (exists mon yr,
          month_key e = (mon ++ " " ++ yr)%string
          /\ String.length mon = 3%nat /\ String.length yr = 4%nat).
Proof.
  split; [cbv; intuition discriminate|].
  split; [reflexivity|]. split; [reflexivity|].
  intros [mon [yr [E [L3 L4]]]].
  apply (f_equal String.length) in E.
  rewrite !string_length_app, L3, L4 in E. discriminate E.
Qed.



(** ** Totals *)

Lemma get_expenses_by_month_no_expense (ps : list Person) :
  (forall p, In p ps -> expenses p = []) -> get_expenses_by_month ps = [].
Proof.
  unfold get_expenses_by_month. generalize (@nil (string * list Expense)).
  induction ps as [|p ps IH]; intros acc H; simpl; [reflexivity|].
  rewrite (H p (or_introl eq_refl)). simpl.
  apply IH. intros q Hq. apply H. now right.
Qed.

Lemma month_totals_returns (ps : list Person) (m : string)
  (es : list Expense) :
  ps <> [] ->
  month_totals ps m es
  = Py.Returned
      (map (person_row
              (Py.sum (map value es) / inject_Z (Py.sum_int (map weight ps)))
              m) ps,
       fold_left (fun b r => Py.set b (row_name r) (row_difference r))
         (map (person_row
                 (Py.sum (map value es)
                  / inject_Z (Py.sum_int (map weight ps))) m) ps) []).
Proof.
  intros H. unfold month_totals, Py.truediv.
  pose proof (total_weight_pos ps H) as W.
  destruct (Z.eqb_spec (Py.sum_int (map weight ps)) 0) as [E|_]; [lia|].
  reflexivity.
Qed.

Lemma totals_loop_returns (ps : list Person)
  (items : list (string * list Expense)) (acc : totals_result) :
  ps <> [] -> exists r, totals_loop ps items acc = Py.Returned r.
Proof.
  intros H. revert acc. induction items as [|[m es] items IH]; intros acc.
  - now exists acc.
  - simpl. rewrite (month_totals_returns ps m es H). simpl. apply IH.
Qed.

(** C5. [calculate_totals] raises the no-persons [ValueError] when the
    participant collection is empty and returns (raising nothing at all)
    when it is not, so it fails exactly on the empty collection; the test
    comes before any look at the expenses: participants without any expense
    give two empty dictionaries.  The manager is never modified. *)
Theorem calculate_totals_fails_iff_empty (self : ExpenseManager) :
  (persons self = [] ->
   calculate_totals self = (Py.Raised (Py.ValueError no_persons), self))
  /\ (persons self <> [] ->
      exists r, calculate_totals self = (Py.Returned r, self))
  /\ ((exists e, fst (calculate_totals self) = Py.Raised e)
      <-> persons self = [])
  /\ (persons self <> [] ->
      (forall p, In p (persons self) -> expenses p = []) ->
      calculate_totals self = (Py.Returned ([], []), self)).
Proof.
  unfold calculate_totals.
  destruct (persons self) as [|p ps] eqn:P.
  - split; [reflexivity|]. split; [congruence|]. split; [|congruence].
    split; [reflexivity|]. intros _. now eexists.
  - assert (NE : p :: ps <> []) by discriminate.
    split; [discriminate|]. split; [|split].
    + intros _.
      destruct (totals_loop_returns (p :: ps)
                  (get_expenses_by_month (p :: ps)) ([], []) NE) as [r ->].
      now exists r.
    + split; [|discriminate]. intros [e He]. simpl in He.
      destruct (totals_loop_returns (p :: ps)
                  (get_expenses_by_month (p :: ps)) ([], []) NE) as [r Hr].
      rewrite Hr in He. discriminate.
    + intros _ H. now rewrite (get_expenses_by_month_no_expense _ H).
Qed.

Lemma calculate_totals_fails_iff_empty_witness :
  calculate_totals (mkManager [])
  = (Py.Raised (Py.ValueError "No persons available to calculate totals."),
     mkManager [])
  /\ calculate_totals (run (delete_person "Alice") alice_bob)
     = (Py.Returned ([], []), run (delete_person "Alice") alice_bob).
Proof.
  split.
  - apply (calculate_totals_fails_iff_empty (mkManager [])). reflexivity.
  - apply (calculate_totals_fails_iff_empty
             (run (delete_person "Alice") alice_bob)).
    + discriminate.
    + intros p [Hp | []]. now subst p.
Defined.

Section MonthRows.

Variables (split_amount : Q) (m : string).

Lemma rows_paid_sum (ps : list Person) :
  Py.sum (map row_paid (map (person_row split_amount m) ps))
  == Py.sum (map value (filter (in_month m) (flat_map expenses ps))).
Proof.
  induction ps as [|p ps IH]; simpl; [reflexivity|].
  rewrite sum_cons, IH, filter_app, map_app, sum_app. reflexivity.
Qed.

Lemma rows_should_pay_sum (ps : list Person) :
  Py.sum (map row_should_pay (map (person_row split_amount m) ps))
  == split_amount * inject_Z (Py.sum_int (map weight ps)).
Proof.
  induction ps as [|p ps IH]; simpl.
  - unfold Py.sum, Py.sum_int; simpl. ring.
  - rewrite sum_cons, IH, sum_int_cons, inject_Z_plus.
    unfold row_should_pay; simpl. ring.
Qed.

Lemma rows_difference_sum (ps : list Person) :
  Py.sum (map row_difference (map (person_row split_amount m) ps))
  == Py.sum (map row_paid (map (person_row split_amount m) ps))
     - Py.sum (map row_should_pay (map (person_row split_amount m) ps)).
Proof.
  induction ps as [|p ps IH]; simpl.
  - unfold Py.sum; simpl. ring.
  - rewrite !sum_cons, IH.
    unfold row_difference, row_paid, row_should_pay; simpl. ring.
Qed.

End MonthRows.

Lemma totals_loop_get (ps : list Person)
  (items : list (string * list Expense)) (acc r : totals_result)
  (m : string) (rows : list totals_row) :
  ps <> [] ->
  totals_loop ps items acc = Py.Returned r ->
  Py.get (fst r) m = Some rows ->
  Py.get (fst acc) m = Some rows
  \/ exists es,
       In (m, es) items
       /\ rows = map (person_row
                        (Py.sum (map value es)
                         / inject_Z (Py.sum_int (map weight ps))) m) ps.
Proof.
  intros NE. revert acc. induction items as [|[k es] items IH]; intros acc.
  - simpl. intros [= <-] H. now left.
  - simpl. rewrite (month_totals_returns ps k es NE). simpl. intros Hr Hget.
    destruct (IH _ Hr Hget) as [H|[es' [Hin Hrows]]].
    + simpl in H. rewrite get_set in H.
      destruct (String.eqb_spec k m) as [E|E].
      * subst k. injection H as <-. right. exists es. split; [now left|].
        reflexivity.
      * now left.
    + right. exists es'. split; [now right | exact Hrows].
Qed.

Lemma totals_loop_keeps (ps : list Person)
  (items : list (string * list Expense)) (acc r : totals_result)
  (m : string) :
  ps <> [] ->
  totals_loop ps items acc = Py.Returned r ->
  Py.get (fst acc) m <> None \/ In m (Py.keys items) ->
  Py.get (fst r) m <> None.
Proof.
  intros NE. revert acc. induction items as [|[k es] items IH]; intros acc.
  - simpl. intros [= <-] [H|[]]. exact H.
  - simpl. rewrite (month_totals_returns ps k es NE). simpl. intros Hr H.
    apply (IH _ Hr). simpl. rewrite get_set.
    destruct (String.eqb_spec k m) as [E|E]; [left; discriminate|].
    destruct H as [H|[H|H]]; [now left | contradiction | now right].
Qed.



(** ** The settlement loop *)

Lemma insert_desc_perm (x : party) (l : list party) :
  Permutation (insert_desc x l) (x :: l).
Proof.
  induction l as [|y l IH]; simpl; [reflexivity|].
  destruct (Py.Qlt_bool (snd x) (snd y)); [|reflexivity].
  rewrite IH. apply perm_swap.
Qed.

Lemma sort_desc_perm (l : list party) : Permutation (sort_desc l) l.
Proof.
  induction l as [|x l IH]; simpl; [reflexivity|].
  rewrite insert_desc_perm. now constructor.
Qed.

Lemma sort_desc_length (l : list party) :
  List.length (sort_desc l) = List.length l.
Proof. apply Permutation_length, sort_desc_perm. Qed.

Lemma Qlt_bool_true (x y : Q) : Py.Qlt_bool x y = true <-> x < y.
Proof.
  unfold Py.Qlt_bool. rewrite Qlt_alt.
  destruct (x ?= y); split; congruence.
Qed.

Lemma Qlt_bool_false (x y : Q) : Py.Qlt_bool x y = false <-> y <= x.
Proof.
  pose proof (Qlt_bool_true x y) as T.
  destruct (Py.Qlt_bool x y); split; intros H.
  - discriminate.
  - apply Qle_not_lt in H. elim H. now apply T.
  - apply Qnot_lt_le. intros L. apply T in L. discriminate.
  - reflexivity.
Qed.

Ltac qlt_hyps :=
  repeat match goal with
         | H : Py.Qlt_bool _ _ = true |- _ => apply Qlt_bool_true in H
         | H : Py.Qlt_bool _ _ = false |- _ => apply Qlt_bool_false in H
         | H : Qeq_bool _ _ = true |- _ => apply Qeq_bool_iff in H
         | H : Qeq_bool _ _ = false |- _ => apply Qeq_bool_neq in H
         end.

Lemma while_loop_step (st : loop_state) :
  while_loop st = if loop_cond st then while_loop (loop_body st) else st.
Proof.
  funelim (while_loop st).
  - now rewrite running.
  - now rewrite e.
Qed.

(** The rule of the [while] loop: an invariant of the body holds at the
    exit, where the loop condition is false. *)
Lemma while_loop_invariant (Inv : loop_state -> Prop) :
  (forall s, Inv s -> loop_cond s = true -> Inv (loop_body s)) ->
  forall st, Inv st ->
             Inv (while_loop st) /\ loop_cond (while_loop st) = false.
Proof.
  intros Hbody st. funelim (while_loop st); intros Hinv.
  - apply H; [exact Hbody | now apply Hbody].
  - now split.
Qed.

Lemma loop_cond_true (st : loop_state) :
  loop_cond st = true ->
  exists cn cb cs dn db ds,
    creditors st = (cn, cb) :: cs /\ debtors st = (dn, db) :: ds.
Proof.
  unfold loop_cond.
  destruct (creditors st) as [|[cn cb] cs]; [discriminate|].
  destruct (debtors st) as [|[dn db] ds]; [discriminate|].
  intros _. now exists cn, cb, cs, dn, db, ds.
Qed.

Lemma loop_cond_false (st : loop_state) :
  loop_cond st = false <-> creditors st = [] \/ debtors st = [].
Proof.
  unfold loop_cond.
  destruct (creditors st) as [|c cs]; [tauto|].
  destruct (debtors st) as [|dd ds]; [tauto|].
  split; [discriminate | intros [H|H]; discriminate].
Qed.

(** The three ways through the body. *)
Lemma loop_body_cases (st : loop_state) cn cb cs dn db ds :
  creditors st = (cn, cb) :: cs -> debtors st = (dn, db) :: ds ->
  (db < cb
   /\ loop_body st
      = mkLoop ((cn, cb - db) :: cs) ds (settlements st ++ [(dn, cn, db)]))
  \/ (cb < db
      /\ loop_body st
         = mkLoop cs ((dn, db - cb) :: ds) (settlements st ++ [(dn, cn, cb)]))
  \/ (cb == db
      /\ loop_body st = mkLoop cs ds (settlements st ++ [(dn, cn, cb)])).
Proof.
  intros Hc Hd. unfold loop_body, Py.min. rewrite Hc, Hd.
  destruct (Py.Qlt_bool db cb) eqn:E1.
  - left. split; [now apply Qlt_bool_true | reflexivity].
  - right. apply Qlt_bool_false in E1.
    destruct (Py.Qlt_bool cb db) eqn:E2.
    + left. split; [now apply Qlt_bool_true | reflexivity].
    + right. apply Qlt_bool_false in E2. split; [now apply Qle_antisym | reflexivity].
Qed.

Lemma loop_body_removes (st : loop_state) :
  loop_cond st = true ->
  (loop_size (loop_body st) < loop_size st
   /\ loop_size st <= loop_size (loop_body st) + 2)%nat.
Proof.
  intros H. destruct (loop_cond_true st H)
    as [cn [cb [cs [dn [db [ds [Hc Hd]]]]]]].
  destruct (loop_body_cases st cn cb cs dn db ds Hc Hd)
    as [[_ E]|[[_ E]|[_ E]]]; rewrite E; unfold loop_size;
    rewrite Hc, Hd; simpl; lia.
Qed.

Lemma while_loop_iterates (st : loop_state) :
  exists k,
    (k <= loop_size st)%nat
    /\ while_loop st = Nat.iter k loop_body st
    /\ loop_cond (Nat.iter k loop_body st) = false
    /\ forall j, (j < k)%nat -> loop_cond (Nat.iter j loop_body st) = true.
Proof.
  funelim (while_loop st).
  - destruct H as [k [Hk [Hw [Hexit Hrun]]]].
    exists (S k). pose proof (loop_body_removes st running) as [Hlt _].
    rewrite !Nat.iter_succ_r. repeat split.
    + lia.
    + exact Hw.
    + exact Hexit.
    + intros [|j] Hj; [exact running|].
      rewrite Nat.iter_succ_r. apply Hrun. lia.
  - exists 0%nat. repeat split; [lia | exact e | intros j Hj; lia].
Qed.

(** C9. The settlement loop terminates: a pass through the body takes
    one party off each list and puts at most one back, so the two lists
    together get strictly shorter; the loop condition is false exactly when
    one list is empty; and from every state, in particular from the one
    built for a balance map, the loop leaves after at most as many passes
    as there are parties, with the state that [while_loop] returns. *)
Theorem settlement_loop_terminates (balances : Py.dict Q) (st : loop_state) :
  (loop_cond st = true ->
   (loop_size (loop_body st) < loop_size st
    /\ loop_size st <= loop_size (loop_body st) + 2)%nat)
  /\ (loop_cond st = false <-> creditors st = [] \/ debtors st = [])
  /\ (exists k,
        (k <= loop_size st)%nat
        /\ while_loop st = Nat.iter k loop_body st
        /\ loop_cond (Nat.iter k loop_body st) = false
        /\ forall j, (j < k)%nat ->
                     loop_cond (Nat.iter j loop_body st) = true)
  /\ (exists k,
        (k <= List.length (creditors_of balances)
              + List.length (debtors_of balances))%nat
        /\ settle_month balances
           = settlements (Nat.iter k loop_body (initial_state balances))
        /\ loop_cond (Nat.iter k loop_body (initial_state balances)) = false).
Proof.
  split; [apply loop_body_removes|]. split; [apply loop_cond_false|].
  split; [apply while_loop_iterates|].
  destruct (while_loop_iterates (initial_state balances))
    as [k [Hk [Hw [Hexit _]]]].
  exists k. split; [|split].
  - unfold loop_size, initial_state in Hk. simpl in Hk.
    rewrite !sort_desc_length in Hk. exact Hk.
  - unfold settle_month. fold (initial_state balances). now rewrite Hw.
  - exact Hexit.
Qed.

Lemma settlement_loop_terminates_witness :
  (loop_size (loop_body (initial_state five_balances))
   < loop_size (initial_state five_balances))%nat
  /\ loop_size (initial_state five_balances) = 5%nat
  /\ settle_month five_balances
     = settlements (Nat.iter 4 loop_body (initial_state five_balances))
  /\ loop_cond (Nat.iter 4 loop_body (initial_state five_balances)) = false.
Proof.
  destruct (settlement_loop_terminates five_balances
              (initial_state five_balances)) as [H _].
  split; [exact (proj1 (H eq_refl))|]. repeat split; reflexivity.
Defined.

(** *** Who appears in a settlement *)

Section Parties.

Variables cnames dnames : list string.

Lemma parties_inv_body (st : loop_state) :
  parties_inv cnames dnames st -> loop_cond st = true ->
  parties_inv cnames dnames (loop_body st).
Proof.
  intros [Pc [Pd [Ic [Id F]]]] H.
  destruct (loop_cond_true st H) as [cn [cb [cs [dn [db [ds [Hc Hd]]]]]]].
  rewrite Hc in Pc, Ic. rewrite Hd in Pd, Id.
  inversion Pc as [|? ? Hcb Pcs]; subst.
  inversion Pd as [|? ? Hdb Pds]; subst. simpl in Hcb, Hdb.
  assert (Icn : In cn cnames) by (apply Ic; now left).
  assert (Idn : In dn dnames) by (apply Id; now left).
  assert (Ics : incl (names cs) cnames)
    by (intros x Hx; apply Ic; now right).
  assert (Ids : incl (names ds) dnames)
    by (intros x Hx; apply Id; now right).
  assert (Fnew : forall a, 0 < a ->
                   Forall (fair cnames dnames)
                     (settlements st ++ [(dn, cn, a)])).
  { intros a Ha. apply Forall_app. split; [exact F|].
    constructor; [|constructor]. now repeat split. }
  unfold parties_inv.
  destruct (loop_body_cases st cn cb cs dn db ds Hc Hd)
    as [[L E]|[[L E]|[L E]]]; rewrite E; simpl.
  - repeat split; try assumption; [|now apply Fnew].
    constructor; [simpl; lra | exact Pcs].
  - repeat split; try assumption; [|now apply Fnew].
    constructor; [simpl; lra | exact Pds].
  - repeat split; try assumption. now apply Fnew.
Qed.

End Parties.

Lemma positive_perm (l l' : list party) :
  Permutation l l' -> positive l -> positive l'.
Proof. intros P. unfold positive. now rewrite P. Qed.

Lemma creditors_positive (b : Py.dict Q) : positive (creditors_of b).
Proof.
  unfold positive, creditors_of. apply Forall_forall. intros p Hp.
  apply filter_In in Hp. now apply Qlt_bool_true.
Qed.

Lemma debtors_positive (b : Py.dict Q) : positive (debtors_of b).
Proof.
  unfold positive, debtors_of. apply Forall_forall. intros p Hp.
  apply in_map_iff in Hp. destruct Hp as [q [<- Hq]].
  apply filter_In in Hq. destruct Hq as [_ Hq].
  apply Qlt_bool_true in Hq. simpl. lra.
Qed.

Lemma creditor_name_in (b : Py.dict Q) (n : string) :
  In n (names (creditors_of b)) -> exists v, In (n, v) b /\ 0 < v.
Proof.
  unfold names, creditors_of. intros H. apply in_map_iff in H.
  destruct H as [[k v] [<- H]]. apply filter_In in H. destruct H as [H L].
  exists v. split; [exact H | now apply Qlt_bool_true].
Qed.

Lemma debtor_name_in (b : Py.dict Q) (n : string) :
  In n (names (debtors_of b)) -> exists v, In (n, v) b /\ v < 0.
Proof.
  unfold names, debtors_of. rewrite map_map. simpl. intros H.
  apply in_map_iff in H.
  destruct H as [[k v] [<- H]]. apply filter_In in H. destruct H as [H L].
  exists v. split; [exact H | now apply Qlt_bool_true].
Qed.

Lemma initial_parties_inv (b : Py.dict Q) :
  parties_inv (names (creditors_of b)) (names (debtors_of b))
    (initial_state b).
Proof.
  unfold parties_inv, initial_state; simpl. repeat split.
  - apply (positive_perm (creditors_of b));
      [symmetry; apply sort_desc_perm | apply creditors_positive].
  - apply (positive_perm (debtors_of b));
      [symmetry; apply sort_desc_perm | apply debtors_positive].
  - intros x. unfold names. now rewrite sort_desc_perm.
  - intros x. unfold names. now rewrite sort_desc_perm.
  - constructor.
Qed.

Lemma settle_month_fair (b : Py.dict Q) :
  Forall (fair (names (creditors_of b)) (names (debtors_of b)))
    (settle_month b).
Proof.
  unfold settle_month. fold (initial_state b).
  destruct (while_loop_invariant _
              (parties_inv_body (names (creditors_of b))
                 (names (debtors_of b)))
              (initial_state b) (initial_parties_inv b)) as [Inv _].
  apply Inv.
Qed.

(** [calculate_settlements] on a dictionary: one entry per month. *)
Lemma set_fresh {V} (acc : Py.dict V) (k : string) (v : V) :
  ~ In k (Py.keys acc) -> Py.set acc k v = acc ++ [(k, v)].
Proof.
  induction acc as [|[k0 v0] acc IH]; simpl; [reflexivity|].
  intros H. destruct (String.eqb_spec k0 k) as [E|E].
  - elim H. now left.
  - f_equal. apply IH. tauto.
Qed.

Lemma calculate_settlements_map (bbm : Py.dict (Py.dict Q)) :
  Py.dict_wf bbm ->
  calculate_settlements bbm
  = map (fun mb => (fst mb, settle_month (snd mb))) bbm.
Proof.
  unfold calculate_settlements, Py.dict_wf.
  enough (H : forall acc,
            NoDup (Py.keys bbm) ->
            (forall k, In k (Py.keys bbm) -> ~ In k (Py.keys acc)) ->
            fold_left (fun acc mb => Py.set acc (fst mb) (settle_month (snd mb)))
              bbm acc
            = acc ++ map (fun mb => (fst mb, settle_month (snd mb))) bbm)
    by (intros W; apply (H [] W); intros k _ []).
  induction bbm as [|[m b] bbm IH]; intros acc W D; simpl.
  - now rewrite app_nil_r.
  - inversion W as [|? ? Hm W']; subst.
    rewrite set_fresh by (apply D; now left).
    rewrite IH; [now rewrite <- app_assoc | exact W'|].
    intros k Hk. unfold Py.keys. rewrite map_app, in_app_iff. simpl.
    intros [H|[H|[]]].
    + apply (D k); [now right | exact H].
    + subst k. contradiction.
Qed.

Lemma calculate_settlements_get (bbm : Py.dict (Py.dict Q)) (m : string)
  (b : Py.dict Q) :
  Py.dict_wf bbm -> Py.get bbm m = Some b ->
  Py.get (calculate_settlements bbm) m = Some (settle_month b).
Proof.
  intros W. rewrite (calculate_settlements_map bbm W). clear W.
  induction bbm as [|[k v] bbm IH]; simpl; [discriminate|].
  destruct (String.eqb k m); [now intros [= ->] | exact IH].
Qed.

(** C2. Every settlement produced for a month has a positive amount; its
    debtor and its creditor are keys of the month's balance map, the
    debtor with a negative balance and the creditor with a positive one, so
    they are two different names and no participant whose balance is zero
    is a party to any settlement. *)
Theorem settlements_are_well_formed (balances_by_month : Py.dict (Py.dict Q))
  (m : string) (balances : Py.dict Q) :
  Py.dict_wf balances_by_month ->
  Py.get balances_by_month m = Some balances ->
  Py.dict_wf balances ->
  exists ss,
    Py.get (calculate_settlements balances_by_month) m = Some ss
    /\ forall debtor creditor amount,
         In (debtor, creditor, amount) ss ->
         0 < amount
         /\ debtor <> creditor
         /\ In debtor (Py.keys balances) /\ In creditor (Py.keys balances)
         /\ (forall v, In (debtor, v) balances -> v < 0)
         /\ (forall v, In (creditor, v) balances -> 0 < v)
         /\ (forall n v, In (n, v) balances -> v == 0 ->
                         n <> debtor /\ n <> creditor).
Proof.
  intros Wm Hget W. exists (settle_month balances).
  split; [now apply calculate_settlements_get|].
  intros debtor creditor amount Hin.
  pose proof (settle_month_fair balances) as F.
  rewrite Forall_forall in F. destruct (F _ Hin) as [Ha [Hc Hd]].
  simpl in Ha, Hc, Hd.
  destruct (creditor_name_in _ _ Hc) as [vc [Ic Lc]].
  destruct (debtor_name_in _ _ Hd) as [vd [Id Ld]].
  assert (U : forall n v v', In (n, v) balances -> In (n, v') balances ->
                             v = v').
  { intros n v v' H1 H2. apply (in_get _ _ _ W) in H1, H2. congruence. }
  split; [exact Ha|]. split; [|split; [|split; [|split; [|split]]]].
  - intros E. subst creditor. rewrite (U _ _ _ Ic Id) in Lc. lra.
  - change debtor with (fst (debtor, vd)). now apply in_map.
  - change creditor with (fst (creditor, vc)). now apply in_map.
  - intros v Hv. now rewrite (U _ _ _ Hv Id).
  - intros v Hv. now rewrite (U _ _ _ Hv Ic).
  - intros n v Hv Z. split; intros E; subst n.
    + rewrite (U _ _ _ Hv Id) in Z. lra.
    + rewrite (U _ _ _ Hv Ic) in Z. lra.
Qed.

Lemma settlements_are_well_formed_witness :
  exists ss,
    Py.get (calculate_settlements [("MAR 2024", four_balances)]) "MAR 2024"
    = Some ss
    /\ forall debtor creditor amount,
         In (debtor, creditor, amount) ss ->
         0 < amount /\ debtor <> creditor.
Proof.
  destruct (settlements_are_well_formed [("MAR 2024", four_balances)]
              "MAR 2024" four_balances) as [ss [Hget H]].
  - repeat constructor; simpl; tauto.
  - reflexivity.
  - repeat constructor; simpl; intuition discriminate.
  - exists ss. split; [exact Hget|]. intros dn cn a Hin.
    destruct (H dn cn a Hin) as [Ha [Hne _]]. now split.
Defined.

(** *** What the settlements pay off *)

Lemma owed_cons (k : string) (a : Q) (l : list party) (n : string) :
  owed ((k, a) :: l) n == share k n a + owed l n.
Proof.
  unfold owed, share. simpl. destruct (String.eqb k n); simpl.
  - apply sum_cons.
  - ring.
Qed.

Lemma paid_cons (s : settlement) (ss : list settlement) (n : string) :
  paid (s :: ss) n == share (debtor_of s) n (amount_of s) + paid ss n.
Proof.
  unfold paid, share. simpl. destruct (String.eqb (debtor_of s) n); simpl.
  - apply sum_cons.
  - ring.
Qed.

Lemma received_cons (s : settlement) (ss : list settlement) (n : string) :
  received (s :: ss) n == share (creditor_of s) n (amount_of s) + received ss n.
Proof.
  unfold received, share. simpl. destruct (String.eqb (creditor_of s) n); simpl.
  - apply sum_cons.
  - ring.
Qed.

Lemma paid_snoc (ss : list settlement) (s : settlement) (n : string) :
  paid (ss ++ [s]) n == paid ss n + share (debtor_of s) n (amount_of s).
Proof.
  induction ss as [|x ss IH]; simpl.
  - rewrite paid_cons. unfold paid; simpl. ring.
  - rewrite !paid_cons, IH. ring.
Qed.

Lemma received_snoc (ss : list settlement) (s : settlement) (n : string) :
  received (ss ++ [s]) n
  == received ss n + share (creditor_of s) n (amount_of s).
Proof.
  induction ss as [|x ss IH]; simpl.
  - rewrite received_cons. unfold received; simpl. ring.
  - rewrite !received_cons, IH. ring.
Qed.

Lemma total_cons (p : party) (l : list party) : total (p :: l) == snd p + total l.
Proof. unfold total. simpl. apply sum_cons. Qed.

Lemma share_eq (k n : string) (a b : Q) : a == b -> share k n a == share k n b.
Proof. unfold share. now destruct (String.eqb k n). Qed.

Lemma share_minus (k n : string) (a b : Q) :
  share k n (a - b) == share k n a - share k n b.
Proof. unfold share. destruct (String.eqb k n); ring. Qed.

Lemma total_positive (l : list party) : positive l -> l <> [] -> 0 < total l.
Proof.
  intros P. induction P as [|p l Hp P IH]; [intros H; now elim H|].
  intros _. rewrite total_cons. destruct l as [|q l].
  - unfold total; simpl. change (Py.sum []) with 0. lra.
  - assert (0 < total (q :: l)) by (apply IH; discriminate). lra.
Qed.

Section Accounts.

(** The creditor and debtor lists at the entry of the loop. *)
Variables cs0 ds0 : list party.

Lemma accounts_inv_body (st : loop_state) :
  accounts_inv cs0 ds0 st -> loop_cond st = true ->
  accounts_inv cs0 ds0 (loop_body st).
Proof.
  intros [R [P T]] H.
  destruct (loop_cond_true st H) as [cn [cb [cs [dn [db [ds [Hc Hd]]]]]]].
  rewrite Hc, Hd in T. rewrite !total_cons in T. simpl in T.
  unfold accounts_inv.
  destruct (loop_body_cases st cn cb cs dn db ds Hc Hd)
    as [[L E]|[[L E]|[L E]]]; rewrite E; simpl; repeat split.
  all: try (intros n; specialize (R n); specialize (P n);
            rewrite Hc in R; rewrite Hd in P;
            rewrite owed_cons in R; rewrite owed_cons in P;
            rewrite ?owed_cons, ?received_snoc, ?paid_snoc, ?share_minus;
            unfold creditor_of, debtor_of, amount_of; simpl;
            pose proof (share_eq dn n cb db);
            lra).
  all: rewrite ?total_cons; simpl; lra.
Qed.

End Accounts.

Lemma owed_perm (l l' : list party) (n : string) :
  Permutation l l' -> owed l n == owed l' n.
Proof.
  intros P. induction P as [|[k a] l l' P IH|[k a] [k' a'] l|l l' l'' P IH P' IH'].
  - reflexivity.
  - rewrite !owed_cons, IH. reflexivity.
  - rewrite !owed_cons. ring.
  - now rewrite IH.
Qed.

Lemma owed_absent (l : list party) (n : string) :
  ~ In n (names l) -> owed l n == 0.
Proof.
  induction l as [|[k a] l IH]; intros H; [reflexivity|].
  rewrite owed_cons, IH by (intros I; apply H; now right).
  unfold share. destruct (String.eqb_spec k n) as [E|E]; [|ring].
  elim H. now left.
Qed.

Lemma creditors_names_incl (b : Py.dict Q) :
  incl (names (creditors_of b)) (Py.keys b).
Proof.
  intros n H. destruct (creditor_name_in b n H) as [v [I _]].
  change n with (fst (n, v)). now apply in_map.
Qed.

Lemma debtors_names_incl (b : Py.dict Q) :
  incl (names (debtors_of b)) (Py.keys b).
Proof.
  intros n H. destruct (debtor_name_in b n H) as [v [I _]].
  change n with (fst (n, v)). now apply in_map.
Qed.

Lemma creditors_of_cons (k : string) (w : Q) (b : Py.dict Q) :
  creditors_of ((k, w) :: b)
  = if Py.Qlt_bool 0 w then (k, w) :: creditors_of b else creditors_of b.
Proof. reflexivity. Qed.

Lemma debtors_of_cons (k : string) (w : Q) (b : Py.dict Q) :
  debtors_of ((k, w) :: b)
  = if Py.Qlt_bool w 0 then (k, - w) :: debtors_of b else debtors_of b.
Proof. unfold debtors_of. simpl. now destruct (Py.Qlt_bool w 0). Qed.

(** In a dictionary, the creditor list owes [n] its balance when that is
    positive, and the debtor list has [n] owe the opposite of its balance
    when that is negative. *)
Lemma owed_creditors (b : Py.dict Q) (n : string) (v : Q) :
  Py.dict_wf b -> In (n, v) b ->
  owed (creditors_of b) n == if Py.Qlt_bool 0 v then v else 0.
Proof.
  unfold Py.dict_wf. induction b as [|[k w] b IH]; intros W H;
    [contradiction|].
  inversion W as [|? ? Hk Wb]; subst. rewrite creditors_of_cons.
  destruct H as [H|H].
  - injection H as -> ->.
    assert (Z : owed (creditors_of b) n == 0).
    { apply owed_absent. intros I. apply Hk.
      now apply creditors_names_incl. }
    destruct (Py.Qlt_bool 0 v); [|exact Z].
    rewrite owed_cons, Z. unfold share. rewrite String.eqb_refl. ring.
  - assert (N : k <> n).
    { intros ->. apply Hk. change n with (fst (n, v)). now apply in_map. }
    rewrite <- (IH Wb H).
    destruct (Py.Qlt_bool 0 w); [|reflexivity].
    rewrite owed_cons. unfold share.
    destruct (String.eqb_spec k n); [contradiction | ring].
Qed.

Lemma owed_debtors (b : Py.dict Q) (n : string) (v : Q) :
  Py.dict_wf b -> In (n, v) b ->
  owed (debtors_of b) n == if Py.Qlt_bool v 0 then - v else 0.
Proof.
  unfold Py.dict_wf. induction b as [|[k w] b IH]; intros W H;
    [contradiction|].
  inversion W as [|? ? Hk Wb]; subst. rewrite debtors_of_cons.
  destruct H as [H|H].
  - injection H as -> ->.
    assert (Z : owed (debtors_of b) n == 0).
    { apply owed_absent. intros I. apply Hk.
      now apply debtors_names_incl. }
    destruct (Py.Qlt_bool v 0); [|exact Z].
    rewrite owed_cons, Z. unfold share. rewrite String.eqb_refl. ring.
  - assert (N : k <> n).
    { intros ->. apply Hk. change n with (fst (n, v)). now apply in_map. }
    rewrite <- (IH Wb H).
    destruct (Py.Qlt_bool w 0); [|reflexivity].
    rewrite owed_cons. unfold share.
    destruct (String.eqb_spec k n); [contradiction | ring].
Qed.

(** The balances add up to what is owed to the creditors minus what the
    debtors owe. *)
Lemma balances_total (b : Py.dict Q) :
  Py.sum (map snd b) == total (creditors_of b) - total (debtors_of b).
Proof.
  induction b as [|[k w] b IH].
  - unfold total; simpl. reflexivity.
  - rewrite creditors_of_cons, debtors_of_cons.
    simpl map. rewrite sum_cons, IH. simpl.
    destruct (Py.Qlt_bool 0 w) eqn:E1; destruct (Py.Qlt_bool w 0) eqn:E2;
      rewrite ?total_cons; simpl; qlt_hyps; lra.
Qed.

Lemma total_perm (l l' : list party) : Permutation l l' -> total l == total l'.
Proof.
  intros P. induction P as [|p l l' P IH|p q l|l l' l'' P IH P' IH'].
  - reflexivity.
  - rewrite !total_cons, IH. reflexivity.
  - rewrite !total_cons. ring.
  - now rewrite IH.
Qed.

Lemma apply_settlement_entry (s : settlement) (b : Py.dict Q) :
  Forall2 (fun old new =>
             fst new = fst old
             /\ snd new == snd old + share (debtor_of s) (fst old) (amount_of s)
                           - share (creditor_of s) (fst old) (amount_of s))
    b (apply_settlement b s).
Proof.
  destruct s as [[dn cn] a].
  unfold apply_settlement, Py.update, share, debtor_of, creditor_of,
    amount_of. rewrite map_map. simpl.
  induction b as [|[k v] b IH]; simpl; constructor; [|exact IH].
  simpl.
  destruct (String.eqb_spec dn k); destruct (String.eqb_spec k dn);
    try congruence; simpl;
    destruct (String.eqb_spec cn k); destruct (String.eqb_spec k cn);
    try congruence; simpl; split; first [reflexivity | ring].
Qed.

Lemma apply_settlements_settled (ss : list settlement) (b : Py.dict Q) :
  Forall (fun nb => snd nb + paid ss (fst nb) - received ss (fst nb) == 0) b ->
  settled (apply_settlements ss b).
Proof.
  unfold settled, apply_settlements. revert b.
  induction ss as [|s ss IH]; intros b H; simpl.
  - eapply Forall_impl; [|exact H]. intros [k v]; simpl.
    unfold paid, received; simpl. change (Py.sum []) with 0. intros E. lra.
  - apply IH. pose proof (apply_settlement_entry s b) as F.
    induction F as [|old new b b' [Hk Hv] F IHF]; [constructor|].
    inversion H as [|? ? Hold Hb]; subst.
    constructor; [|now apply IHF].
    rewrite Hk, Hv. rewrite paid_cons, received_cons in Hold. lra.
Qed.

Lemma settle_month_accounts (b : Py.dict Q) :
  Py.sum (map snd b) == 0 ->
  forall n, received (settle_month b) n == owed (creditors_of b) n
            /\ paid (settle_month b) n == owed (debtors_of b) n.
Proof.
  intros Z.
  pose proof (sort_desc_perm (creditors_of b)) as Pc.
  pose proof (sort_desc_perm (debtors_of b)) as Pd.
  assert (I0 : accounts_inv (sort_desc (creditors_of b))
                 (sort_desc (debtors_of b)) (initial_state b)).
  { unfold accounts_inv, initial_state; simpl. repeat split.
    - intros n. unfold received; simpl. change (Py.sum []) with 0. ring.
    - intros n. unfold paid; simpl. change (Py.sum []) with 0. ring.
    - rewrite (total_perm _ _ Pc), (total_perm _ _ Pd).
      pose proof (balances_total b). lra. }
  destruct (while_loop_invariant _ (accounts_inv_body _ _) _ I0)
    as [[R [P T]] Hexit].
  destruct (while_loop_invariant _
              (parties_inv_body (names (creditors_of b))
                 (names (debtors_of b)))
              (initial_state b) (initial_parties_inv b))
    as [[Pos_c [Pos_d _]] _].
  unfold settle_month. fold (initial_state b).
  set (st := while_loop (initial_state b)) in *.
  assert (Ec : creditors st = [] /\ debtors st = []).
  { apply loop_cond_false in Hexit.
    destruct (creditors st) as [|c cs] eqn:Ec;
      destruct (debtors st) as [|dd ds] eqn:Ed; try (now split).
    - assert (0 < total (dd :: ds))
        by (apply total_positive; [exact Pos_d | discriminate]).
      change (total []) with 0 in T. lra.
    - assert (0 < total (c :: cs))
        by (apply total_positive; [exact Pos_c | discriminate]).
      change (total []) with 0 in T. lra.
    - destruct Hexit; discriminate. }
  destruct Ec as [Ec Ed]. intros n. specialize (R n). specialize (P n).
  rewrite Ec in R. rewrite Ed in P.
  change (owed [] n) with 0 in R, P.
  rewrite (owed_perm _ _ n Pc) in R. rewrite (owed_perm _ _ n Pd) in P.
  split; lra.
Qed.



(** *** How many settlements *)

Lemma count_inv_body (size0 : nat) (st : loop_state) :
  count_inv size0 st -> loop_cond st = true -> count_inv size0 (loop_body st).
Proof.
  intros Inv H. right.
  pose proof (loop_body_removes st H) as [Hlt _].
  assert (Hlen : List.length (settlements (loop_body st))
                 = S (List.length (settlements st))).
  { destruct (loop_cond_true st H) as [cn [cb [cs [dn [db [ds [Hc Hd]]]]]]].
    destruct (loop_body_cases st cn cb cs dn db ds Hc Hd)
      as [[_ E]|[[_ E]|[_ E]]]; rewrite E; simpl;
      rewrite length_app; simpl; lia. }
  assert (H2 : (2 <= loop_size st)%nat).
  { destruct (loop_cond_true st H) as [cn [cb [cs [dn [db [ds [Hc Hd]]]]]]].
    unfold loop_size. rewrite Hc, Hd. simpl. lia. }
  rewrite Hlen. destruct Inv as [[E S0]|Inv].
  - rewrite E in *. simpl. lia.
  - lia.
Qed.

Lemma settle_month_count (b : Py.dict Q) :
  (List.length (settle_month b)
   <= List.length (creditors_of b) + List.length (debtors_of b) - 1)%nat.
Proof.
  unfold settle_month. fold (initial_state b).
  assert (I0 : count_inv (List.length (creditors_of b)
                          + List.length (debtors_of b))
                 (initial_state b)).
  { left. split; [reflexivity|]. unfold loop_size, initial_state; simpl.
    now rewrite !sort_desc_length. }
  destruct (while_loop_invariant _ (count_inv_body _) _ I0) as [[[E _]|C] _].
  - rewrite E. simpl. lia.
  - lia.
Qed.

(** C3, the claim as stated fails.  On the balances A +6, B +3, C -5,
    D -3, E -1 the loop produces four settlements, while the three
    settlements C to A 5, E to A 1 and D to B 3 also bring every balance to
    zero. *)
Lemma greedy_settlement_not_minimal :
  Py.dict_wf five_balances
  /\ Py.sum (map snd five_balances) == 0
  /\ settle_month five_balances
     = [("C", "A", 5); ("D", "A", 1); ("D", "B", 2); ("E", "B", 1)]
  /\ Forall (fun s => 0 < amount_of s)
       [("C", "A", 5); ("E", "A", 1); ("D", "B", 3)]
  /\ settled (apply_settlements [("C", "A", 5); ("E", "A", 1); ("D", "B", 3)]
                five_balances)
  /\ (List.length [("C", "A", 5); ("E", "A", 1); ("D", "B", 3)]
      < List.length (settle_month five_balances))%nat
  /\ ~ (forall balances : Py.dict Q,
          Py.dict_wf balances -> Py.sum (map snd balances) == 0 ->
          forall ss : list settlement,
            Forall (fun s => 0 < amount_of s) ss ->
            settled (apply_settlements ss balances) ->
            (List.length (settle_month balances) <= List.length ss)%nat).
Proof.
  assert (W : Py.dict_wf five_balances)
    by (repeat constructor; simpl; intuition discriminate).
  assert (Z : Py.sum (map snd five_balances) == 0) by reflexivity.
  assert (P : Forall (fun s => 0 < amount_of s)
                [("C", "A", 5); ("E", "A", 1); ("D", "B", 3)])
    by (repeat constructor).
  assert (S : settled (apply_settlements
                         [("C", "A", 5); ("E", "A", 1); ("D", "B", 3)]
                         five_balances))
    by (repeat constructor).
  repeat split; try assumption.
  - vm_compute. lia.
  - intros H. specialize (H five_balances W Z _ P S).
    vm_compute in H. lia.
Qed.

(** C3, amended.  The settlements produced for a month are at most one
    fewer than the participants whose balance is not zero (none when there
    is no such participant); the list is not always the shortest one that
    settles the month. *)
Theorem settlements_count_bound (balances_by_month : Py.dict (Py.dict Q))
  (m : string) (balances : Py.dict Q) :
  Py.dict_wf balances_by_month ->
  Py.get balances_by_month m = Some balances ->
  exists ss,
    Py.get (calculate_settlements balances_by_month) m = Some ss
    /\ (List.length ss
        <= List.length (creditors_of balances)
           + List.length (debtors_of balances) - 1)%nat
    /\ (List.length (creditors_of balances)
        + List.length (debtors_of balances)
        = List.length
            (filter (fun nb => negb (Qeq_bool (snd nb) 0)) balances))%nat.
Proof.
  intros Wm Hget. exists (settle_month balances).
  split; [now apply calculate_settlements_get|].
  split; [apply settle_month_count|].
  clear. induction balances as [|[k w] b IH]; [reflexivity|].
  rewrite creditors_of_cons, debtors_of_cons. simpl.
  destruct (Py.Qlt_bool 0 w) eqn:E1; destruct (Py.Qlt_bool w 0) eqn:E2;
    destruct (Qeq_bool w 0) eqn:E3; simpl; qlt_hyps;
    first [lia | lra | exfalso; apply E3; lra].
Qed.

Lemma settlements_count_bound_witness :
  exists ss,
    Py.get (calculate_settlements [("MAR 2024", five_balances)]) "MAR 2024"
    = Some ss
    /\ (List.length ss <= 4)%nat.
Proof.
  destruct (settlements_count_bound [("MAR 2024", five_balances)]
              "MAR 2024" five_balances) as [ss [Hget [H _]]].
  - repeat constructor; simpl; tauto.
  - reflexivity.
  - exists ss. split; [exact Hget | exact H].
Defined.

(** ** The scenarios of the specification, run through the pipeline *)

(** Alice paid 90, Bob counts for two: Bob pays Alice 60. *)
Example scenario_alice_bob :
  settle_all alice_bob = [("MAR 2024", [("Bob", "Alice", 180 # 3)])]
  /\ 180 # 3 == 60.
Proof. split; reflexivity. Qed.

(** A paid 100, B paid 50, C nothing: C pays A 50 and B is in no
    settlement. *)
Example scenario_three_equal :
  fst (calculate_totals three_equal)
  = Py.Returned
      ([("MAR 2024",
         [("A", 100, 150 # 3, 150 # 3); ("B", 50, 150 # 3, 0 # 3);
          ("C", 0, 150 # 3, -150 # 3)])],
       [("MAR 2024", [("A", 150 # 3); ("B", 0 # 3); ("C", -150 # 3)])])
  /\ settle_all three_equal = [("MAR 2024", [("C", "A", 150 # 3)])].
Proof. split; reflexivity. Qed.

(** Creditors +30 and +20, debtors -25 and -25: three settlements that
    clear the four balances. *)
Example scenario_four_balances :
  settle_month four_balances
  = [("C", "A", 25); ("D", "A", 5); ("D", "B", 20)]
  /\ apply_settlements (settle_month four_balances) four_balances
     = [("A", 30 - 25 - 5); ("B", 20 - 20); ("C", -(25) + 25);
        ("D", -(25) + 5 + 20)].
Proof. split; reflexivity. Qed.

(** ** Further properties of the ledger operations *)

Lemma add_to_first_names (n : string) (e : Expense) (ps : list Person) :
  map name (add_to_first n e ps) = map name ps
  /\ map pays_for_two (add_to_first n e ps) = map pays_for_two ps.
Proof.
  induction ps as [|p ps [IH1 IH2]]; simpl; [now split|].
  destruct (String.eqb (name p) n); simpl; [now split|].
  now rewrite IH1, IH2.
Qed.

Lemma filter_names_nodup (f : Person -> bool) (ps : list Person) :
  unique_names ps -> unique_names (filter f ps).
Proof.
  unfold unique_names. induction ps as [|p ps IH]; simpl; [trivial|].
  intros H. inversion H as [|? ? Hp Hps]; subst.
  destruct (f p); simpl; [|now apply IH].
  constructor; [|now apply IH].
  intros I. apply Hp. apply in_map_iff in I. destruct I as [q [Hq I]].
  apply filter_In in I. rewrite <- Hq. apply in_map. tauto.
Qed.

(** X1. Every operation of the manager keeps the names of the
    participants pairwise different; [add_expense] changes neither the
    names nor the weighting flags nor the number of participants. *)
Theorem unique_names_preserved (self : ExpenseManager) :
  unique_names (persons self) ->
  (forall n two, unique_names (persons (run (add_person n two) self)))
  /\ (forall n uuid invoice descr v dt,
        unique_names
          (persons (run (add_expense n uuid invoice descr v dt) self))
        /\ map name
             (persons (run (add_expense n uuid invoice descr v dt) self))
           = map name (persons self)
        /\ map pays_for_two
             (persons (run (add_expense n uuid invoice descr v dt) self))
           = map pays_for_two (persons self))
  /\ (forall n, unique_names (persons (run (delete_person n) self)))
  /\ unique_names (persons (run erase_all_data self)).
Proof.
  intros U. split; [|split; [|split]].
  - intros n two. unfold run, add_person.
    destruct (existsb (fun person => String.eqb (name person) n)
                (persons self)) eqn:E; simpl; [exact U|].
    unfold unique_names. rewrite map_app. simpl.
    apply NoDup_app; [exact U | repeat constructor; intros [] |].
    intros x Hx [Hn|[]]. subst x. apply in_map_iff in Hx.
    destruct Hx as [p [Hp Hin]].
    assert (T : existsb (fun person => String.eqb (name person) n)
                  (persons self) = true).
    { apply existsb_exists. exists p. split; [exact Hin|].
      now apply String.eqb_eq. }
    congruence.
  - intros n uuid invoice descr v dt. unfold run, add_expense.
    destruct (find (fun p => String.eqb (name p) n) (persons self));
      simpl; [|now repeat split].
    destruct (add_to_first_names n (mkExpense uuid invoice descr v dt)
                (persons self)) as [N F].
    unfold unique_names. rewrite N. now repeat split.
  - intros n. unfold run, delete_person. simpl.
    now apply filter_names_nodup.
  - constructor.
Qed.

Lemma unique_names_preserved_witness :
  unique_names (persons (run (add_person "Carol" false) alice_bob))
  /\ unique_names (persons (run (delete_person "Bob") alice_bob)).
Proof.
  assert (U : unique_names (persons alice_bob))
    by (repeat constructor; simpl; intuition discriminate).
  destruct (unique_names_preserved alice_bob U) as [A [_ [D _]]].
  split; [apply A | apply D].
Defined.

(** X2. On a ledger in which nobody has the name, [add_person] followed
    by [delete_person] of that name gives the ledger back. *)
Theorem add_then_delete_person (n : string) (two : bool)
  (self : ExpenseManager) :
  (forall p, In p (persons self) -> name p <> n) ->
  run (delete_person n) (run (add_person n two) self) = self.
Proof.
  intros H. unfold run, add_person.
  rewrite (existsb_named_false n _ H). unfold delete_person. simpl.
  rewrite filter_app, (filter_not_named_id n _ H). simpl.
  rewrite String.eqb_refl. simpl. rewrite app_nil_r. now destruct self.
Qed.

Lemma add_then_delete_person_witness :
  run (delete_person "Carol") (run (add_person "Carol" true) alice_bob)
  = alice_bob.
Proof.
  apply add_then_delete_person.
  intros p [Hp | [Hp | []]]; subst p; discriminate.
Defined.

(** X3. After [delete_person] of a name, [add_person] of that name never
    raises: no participant of that name is left, whatever the ledger (also
    one in which several participants had the name). *)
Theorem delete_then_add_person (n : string) (two : bool)
  (self : ExpenseManager) :
  (forall p, In p (persons (run (delete_person n) self)) -> name p <> n)
  /\ add_person n two (run (delete_person n) self)
     = (Py.Returned tt,
        mkManager (persons (run (delete_person n) self)
                   ++ [mkPerson n two []])).
Proof.
  assert (H : forall p, In p (persons (run (delete_person n) self)) ->
                        name p <> n).
  { unfold run, delete_person. simpl. intros p Hp.
    apply filter_In in Hp. destruct Hp as [_ Hp].
    now destruct (String.eqb_spec (name p) n). }
  split; [exact H|]. unfold add_person.
  now rewrite (existsb_named_false n _ H).
Qed.

Lemma sum_snoc (l : list Q) (x : Q) : Py.sum (l ++ [x]) == Py.sum l + x.
Proof. rewrite sum_app, sum_cons. change (Py.sum []) with 0. ring. Qed.



(** ** Further properties of the monthly grouping *)

Lemma update_absent {V} (d : Py.dict V) (k : string) (f : V -> V) :
  ~ In k (Py.keys d) -> Py.update d k f = d.
Proof.
  unfold Py.update. induction d as [|[k0 v0] d IH]; simpl; [reflexivity|].
  intros H. destruct (String.eqb_spec k0 k) as [E|E]; [elim H; now left|].
  f_equal. apply IH. tauto.
Qed.

Lemma update_bucket_perm (g : Py.dict (list Expense)) (k : string)
  (e : Expense) :
  Py.dict_wf g -> In k (Py.keys g) ->
  Permutation (flat_map snd (Py.update g k (fun l => l ++ [e])))
    (e :: flat_map snd g).
Proof.
  unfold Py.dict_wf. induction g as [|[k0 l0] g IH]; simpl; [tauto|].
  intros W H. inversion W as [|? ? Hk Wg]; subst.
  destruct (String.eqb_spec k0 k) as [E|E]; simpl.
  - subst k0. fold (Py.update g k (fun l => l ++ [e])).
    rewrite (update_absent g k _ Hk), <- app_assoc. simpl.
    symmetry. apply Permutation_middle.
  - destruct H as [H|H]; [contradiction|].
    fold (Py.update g k (fun l => l ++ [e])).
    rewrite (IH Wg H). symmetry. apply Permutation_middle.
Qed.

Lemma bucket_add_perm (g : Py.dict (list Expense)) (e : Expense) :
  Py.dict_wf g ->
  Permutation (flat_map snd (bucket_add g e)) (e :: flat_map snd g).
Proof.
  intros W. unfold bucket_add, Py.contains.
  destruct (Py.get g (month_key e)) eqn:G.
  - apply update_bucket_perm; [exact W|].
    apply get_none_in_keys. congruence.
  - apply get_none in G. rewrite (set_fresh g _ [] G).
    rewrite update_bucket_perm.
    + rewrite flat_map_app. simpl. now rewrite app_nil_r.
    + fold (Py.set g (month_key e) (@nil Expense)).
      rewrite <- (set_fresh g _ [] G). now apply set_wf.
    + unfold Py.keys. rewrite map_app, in_app_iff. right. now left.
Qed.

Lemma fold_bucket_add_perm (l es : list Expense)
  (g : Py.dict (list Expense)) :
  grouped es g -> Permutation (flat_map snd g) es ->
  Permutation (flat_map snd (fold_left bucket_add l g)) (es ++ l).
Proof.
  revert es g. induction l as [|e l IH]; intros es g G P; simpl.
  - now rewrite app_nil_r.
  - replace (es ++ e :: l) with ((es ++ [e]) ++ l)
      by (now rewrite <- app_assoc).
    apply IH; [now apply bucket_add_grouped|].
    rewrite (bucket_add_perm g e (proj1 G)), P.
    apply Permutation_cons_append.
Qed.

Lemma buckets_perm (ps : list Person) :
  Permutation (flat_map snd (get_expenses_by_month ps))
    (flat_map expenses ps).
Proof.
  unfold get_expenses_by_month.
  enough (H : forall es g,
            grouped es g -> Permutation (flat_map snd g) es ->
            Permutation
              (flat_map snd
                 (fold_left (fun acc person =>
                               fold_left bucket_add (expenses person) acc)
                    ps g))
              (es ++ flat_map expenses ps))
    by (apply (H [] [] grouped_nil); constructor).
  induction ps as [|p ps IH]; intros es g G Pg; simpl.
  - now rewrite app_nil_r.
  - rewrite app_assoc. apply IH.
    + now apply fold_bucket_add_grouped.
    + now apply fold_bucket_add_perm.
Qed.

(** X5. The buckets of [get_expenses_by_month] partition the expenses:
    put end to end they are a rearrangement of all the expenses of all the
    participants, so no expense is lost or filed twice, and the bucket
    sizes add up to the number of expenses. *)
Theorem buckets_partition_expenses (ps : list Person) :
  Permutation (flat_map snd (get_expenses_by_month ps))
    (flat_map expenses ps)
  /\ list_sum (map (fun kl => List.length (snd kl))
                 (get_expenses_by_month ps))
     = List.length (flat_map expenses ps).
Proof.
  pose proof (buckets_perm ps) as P. split; [exact P|].
  rewrite <- (Permutation_length P).
  generalize (get_expenses_by_month ps). intros g.
  induction g as [|[k l] g IH]; simpl; [reflexivity|].
  now rewrite length_app, IH.
Qed.

(** X6. [add_expense] on a name that resolves changes the grouping in
    one bucket only: every other month keeps its bucket, and the bucket of
    the month of the new expense is the old one (or an empty one) with the
    new expense inserted, after the earlier expenses of the same
    participant. *)
Theorem add_expense_regroups_one_month (person_name : string) (uuid : N)
  (invoice descr : string) (v : Q) (dt : Py.date) (self : ExpenseManager)
  (before after : list Person) (p : Person) :
  persons self = before ++ p :: after ->
  name p = person_name ->
  (forall q, In q before -> name q <> person_name) ->
  let e := mkExpense uuid invoice descr v dt in
  let old := get_expenses_by_month (persons self) in
  let new :=
    get_expenses_by_month
      (persons (run (add_expense person_name uuid invoice descr v dt) self))
  in
  (forall k, k <> month_key e -> Py.get new k = Py.get old k)
  /\ Py.get new (month_key e)
     = Some (filter (in_month (month_key e))
               (flat_map expenses before ++ expenses p)
             ++ e :: filter (in_month (month_key e))
                       (flat_map expenses after))
  /\ get_default old (month_key e) []
     = filter (in_month (month_key e))
         (flat_map expenses before ++ expenses p)
       ++ filter (in_month (month_key e)) (flat_map expenses after).
Proof.
  intros Hsplit Hp Hbefore e old new.
  assert (E : persons (run (add_expense person_name uuid invoice descr v dt)
                         self)
              = before ++ Person_add_expense p e :: after).
  { unfold run, add_expense. rewrite Hsplit.
    destruct (find_named_split person_name before after p Hp) as [q ->].
    simpl.
    now rewrite (add_to_first_split person_name _ before after p Hp Hbefore). }
  pose proof (get_expenses_by_month_grouped (persons self)) as [_ Gold].
  pose proof (get_expenses_by_month_grouped
                (persons (run (add_expense person_name uuid invoice descr v dt)
                            self))) as [_ Gnew].
  fold old in Gold. fold new in Gnew. rewrite E in Gnew.
  rewrite Hsplit in Gold.
  assert (Fold : forall k,
            filter (in_month k) (flat_map expenses (before ++ p :: after))
            = filter (in_month k) (flat_map expenses before ++ expenses p)
              ++ filter (in_month k) (flat_map expenses after)).
  { intros k. rewrite flat_map_app. simpl.
    now rewrite !filter_app, app_assoc. }
  assert (Fnew : forall k,
            filter (in_month k)
              (flat_map expenses (before ++ Person_add_expense p e :: after))
            = filter (in_month k) (flat_map expenses before ++ expenses p)
              ++ (if in_month k e then [e] else [])
              ++ filter (in_month k) (flat_map expenses after)).
  { intros k. rewrite flat_map_app. simpl.
    rewrite !filter_app. simpl. rewrite <- !app_assoc.
    now destruct (in_month k e). }
  split; [|split].
  - intros k Hk. rewrite Gnew, Gold, Fnew, Fold.
    unfold in_month at 2.
    destruct (String.eqb_spec (month_key e) k); [congruence | reflexivity].
  - rewrite Gnew, Fnew. unfold in_month at 2. rewrite String.eqb_refl.
    simpl.
    destruct (filter (in_month (month_key e))
                (flat_map expenses before ++ expenses p)); reflexivity.
  - unfold get_default. rewrite Gold, Fold.
    destruct (filter (in_month (month_key e))
                (flat_map expenses before ++ expenses p)
              ++ filter (in_month (month_key e))
                   (flat_map expenses after)); reflexivity.
Qed.

Lemma add_expense_regroups_one_month_witness :
  Py.get
    (get_expenses_by_month
       (persons (run (add_expense "Bob" 9%N "inv-9" "gas" 10 (ymd 2024 3 2))
                   alice_bob)))
    "MAR 2024"
  = Some [mkExpense 1%N "inv-1" "rent" 90 (ymd 2024 3 15);
          mkExpense 9%N "inv-9" "gas" 10 (ymd 2024 3 2)].
Proof.
  destruct (add_expense_regroups_one_month "Bob" 9%N "inv-9" "gas" 10
              (ymd 2024 3 2) alice_bob
              [mkPerson "Alice" false
                 [mkExpense 1%N "inv-1" "rent" 90 (ymd 2024 3 15)]]
              [] (mkPerson "Bob" true []))
    as [_ [H _]].
  - reflexivity.
  - reflexivity.
  - intros q [Hq | []]; subst q; discriminate.
  - exact H.
Defined.

(** ** Further properties of the totals *)

Lemma fold_set_fresh {A V} (key : A -> string) (val : A -> V) (l : list A)
  (acc : Py.dict V) :
  NoDup (map key l) ->
  (forall k, In k (map key l) -> ~ In k (Py.keys acc)) ->
  fold_left (fun d x => Py.set d (key x) (val x)) l acc
  = acc ++ map (fun x => (key x, val x)) l.
Proof.
  revert acc. induction l as [|x l IH]; intros acc W D; simpl.
  - now rewrite app_nil_r.
  - inversion W as [|? ? Hx W']; subst.
    rewrite set_fresh by (apply D; now left).
    rewrite IH; [now rewrite <- app_assoc | exact W'|].
    intros k Hk. unfold Py.keys. rewrite map_app, in_app_iff. simpl.
    intros [H|[H|[]]].
    + apply (D k); [now right | exact H].
    + subst k. contradiction.
Qed.

Lemma month_rows_names (ps : list Person) (m : string) (es : list Expense) :
  map row_name (month_rows ps m es) = map name ps.
Proof. unfold month_rows. rewrite map_map. reflexivity. Qed.

Lemma balances_of_rows_unique (ps : list Person) (m : string)
  (es : list Expense) :
  unique_names ps ->
  balances_of_rows (month_rows ps m es)
  = map (fun r => (row_name r, row_difference r)) (month_rows ps m es).
Proof.
  intros U. unfold balances_of_rows.
  rewrite (fold_set_fresh row_name row_difference); [reflexivity| |].
  - now rewrite month_rows_names.
  - intros k _ [].
Qed.

Lemma totals_loop_closed (ps : list Person)
  (items : list (string * list Expense)) (acc : totals_result) :
  ps <> [] -> NoDup (Py.keys items) ->
  (forall k, In k (Py.keys items) ->
             ~ In k (Py.keys (fst acc)) /\ ~ In k (Py.keys (snd acc))) ->
  totals_loop ps items acc
  = Py.Returned
      (fst acc
       ++ map (fun me => (fst me, month_rows ps (fst me) (snd me))) items,
       snd acc
       ++ map (fun me =>
                 (fst me,
                  balances_of_rows (month_rows ps (fst me) (snd me))))
            items).
Proof.
  intros NE. revert acc. induction items as [|[m es] items IH];
    intros acc W D.
  - simpl. rewrite !app_nil_r. now destruct acc.
  - simpl. rewrite (month_totals_returns ps m es NE). simpl.
    inversion W as [|? ? Hm W']; subst.
    destruct (D m (or_introl eq_refl)) as [D1 D2].
    rewrite IH; [|exact W'|].
    + simpl. rewrite (set_fresh (fst acc) m _ D1).
      rewrite (set_fresh (snd acc) m _ D2).
      rewrite <- !app_assoc. reflexivity.
    + intros k Hk. simpl.
      rewrite (set_fresh (fst acc) m _ D1), (set_fresh (snd acc) m _ D2).
      unfold Py.keys. rewrite !map_app, !in_app_iff. simpl.
      destruct (D k (or_intror Hk)) as [K1 K2].
      split; intros [H|[H|[]]]; try contradiction; subst k; contradiction.
Qed.

Lemma calculate_totals_closed (self : ExpenseManager) :
  persons self <> [] ->
  calculate_totals self
  = (Py.Returned
       (map (fun me => (fst me, month_rows (persons self) (fst me) (snd me)))
          (get_expenses_by_month (persons self)),
        map (fun me =>
               (fst me,
                balances_of_rows
                  (month_rows (persons self) (fst me) (snd me))))
          (get_expenses_by_month (persons self))),
     self).
Proof.
  intros NE. unfold calculate_totals.
  destruct (persons self) as [|p ps] eqn:P; [congruence|].
  rewrite totals_loop_closed; [reflexivity | discriminate | |].
  - rewrite <- P. apply (get_expenses_by_month_grouped (persons self)).
  - intros k _. split; intros [].
Qed.

Lemma get_map_values {V W} (f : string -> V -> W) (d : Py.dict V)
  (k : string) :
  Py.get (map (fun kv => (fst kv, f (fst kv) (snd kv))) d) k
  = option_map (f k) (Py.get d k).
Proof.
  induction d as [|[k0 v0] d IH]; simpl; [reflexivity|].
  destruct (String.eqb_spec k0 k) as [E|E]; [now subst k0 | exact IH].
Qed.

Lemma keys_map_values {V W} (f : string -> V -> W) (d : Py.dict V) :
  Py.keys (map (fun kv => (fst kv, f (fst kv) (snd kv))) d) = Py.keys d.
Proof. unfold Py.keys. rewrite map_map. reflexivity. Qed.

(** X7. The two dictionaries that [calculate_totals] returns have the
    months of [get_expenses_by_month] as keys, in the same order and each
    once; every month has one row per participant, in the order of the
    participants, and its balance map has exactly the participants' names
    as keys. *)
Theorem calculate_totals_months (self : ExpenseManager)
  (totals_by_month : Py.dict (list totals_row))
  (balances_by_month : Py.dict (Py.dict Q)) :
  fst (calculate_totals self)
  = Py.Returned (totals_by_month, balances_by_month) ->
  Py.keys totals_by_month = Py.keys (get_expenses_by_month (persons self))
  /\ Py.keys balances_by_month
     = Py.keys (get_expenses_by_month (persons self))
  /\ Py.dict_wf totals_by_month /\ Py.dict_wf balances_by_month
  /\ (forall m rows, Py.get totals_by_month m = Some rows ->
        map row_name rows = map name (persons self)
        /\ Py.get balances_by_month m = Some (balances_of_rows rows))
  /\ (forall m balances, Py.get balances_by_month m = Some balances ->
        forall n, In n (Py.keys balances)
                  <-> In n (map name (persons self))).
Proof.
  intros H.
  assert (NE : persons self <> []).
  { intros E. unfold calculate_totals in H. rewrite E in H. discriminate. }
  rewrite (calculate_totals_closed self NE) in H. simpl in H.
  injection H as <- <-.
  pose proof (get_expenses_by_month_grouped (persons self)) as [W _].
  rewrite (keys_map_values (fun m es => month_rows (persons self) m es)).
  rewrite (keys_map_values
             (fun m es => balances_of_rows (month_rows (persons self) m es))).
  split; [reflexivity|]. split; [reflexivity|].
  split; [unfold Py.dict_wf;
          now rewrite (keys_map_values
                         (fun m es => month_rows (persons self) m es))|].
  split; [unfold Py.dict_wf;
          now rewrite (keys_map_values
                         (fun m es =>
                            balances_of_rows (month_rows (persons self) m es)))|].
  split.
  - intros m rows.
    rewrite (get_map_values (fun m es => month_rows (persons self) m es)).
    rewrite (get_map_values
               (fun m es => balances_of_rows (month_rows (persons self) m es))).
    destruct (Py.get (get_expenses_by_month (persons self)) m) as [es|];
      simpl; [|discriminate].
    intros [= <-]. split; [apply month_rows_names | reflexivity].
  - intros m balances.
    rewrite (get_map_values
               (fun m es => balances_of_rows (month_rows (persons self) m es))).
    destruct (Py.get (get_expenses_by_month (persons self)) m) as [es|];
      simpl; [|discriminate].
    intros [= <-] n. rewrite <- (month_rows_names (persons self) m es).
    generalize (month_rows (persons self) m es). intros rows.
    unfold balances_of_rows.
    enough (G : forall acc,
              In n (Py.keys
                      (fold_left
                         (fun b r => Py.set b (row_name r) (row_difference r))
                         rows acc))
              <-> In n (Py.keys acc) \/ In n (map row_name rows))
      by (rewrite G; simpl; tauto).
    induction rows as [|r rows IH]; intros acc; simpl; [tauto|].
    rewrite IH, keys_set.
    destruct (Py.contains acc (row_name r)) eqn:C.
    + unfold Py.contains in C.
      assert (K : In (row_name r) (Py.keys acc)).
      { apply get_none_in_keys. intros E. now rewrite E in C. }
      split; [tauto|]. intros [?|[E|?]]; [tauto | subst n; tauto | tauto].
    + rewrite in_app_iff. simpl. tauto.
Qed.

Lemma calculate_totals_months_witness :
  exists totals_by_month balances_by_month,
    fst (calculate_totals two_months)
    = Py.Returned (totals_by_month, balances_by_month)
    /\ Py.keys totals_by_month = ["MAR 2024"; "APR 2024"]
    /\ Py.keys balances_by_month = ["MAR 2024"; "APR 2024"].
Proof.
  eexists. eexists. split; [reflexivity|].
  destruct (calculate_totals_months two_months _ _ eq_refl) as [K1 [K2 _]].
  split; [exact K1 | exact K2].
Defined.

Lemma settle_month_settled (b : Py.dict Q) :
  Py.dict_wf b -> Py.sum (map snd b) == 0 ->
  settled (apply_settlements (settle_month b) b).
Proof.
  intros W Z. apply apply_settlements_settled. apply Forall_forall.
  intros [n v] Hin. simpl.
  destruct (settle_month_accounts b Z n) as [R P].
  rewrite R, P, (owed_creditors _ _ _ W Hin), (owed_debtors _ _ _ W Hin).
  destruct (Py.Qlt_bool 0 v) eqn:E1; destruct (Py.Qlt_bool v 0) eqn:E2;
    qlt_hyps; lra.
Qed.

Lemma month_rows_balanced (ps : list Person) (m : string) :
  ps <> [] ->
  Py.sum (map row_difference
            (month_rows ps m (filter (in_month m) (flat_map expenses ps))))
  == 0.
Proof.
  intros NE. unfold month_rows.
  rewrite rows_difference_sum, rows_paid_sum, rows_should_pay_sum.
  assert (W : ~ inject_Z (Py.sum_int (map weight ps)) == 0).
  { pose proof (total_weight_pos _ NE) as W. intros E.
    apply (proj1 (inject_Z_injective _ 0%Z)) in E. lia. }
  field. exact W.
Qed.



Lemma sum_map_ext {A} (f g : A -> Q) (l : list A) :
  (forall x, In x l -> f x == g x) -> Py.sum (map f l) == Py.sum (map g l).
Proof.
  induction l as [|x l IH]; intros H; simpl; [reflexivity|].
  rewrite !sum_cons, IH, (H x (or_introl eq_refl)); [reflexivity|].
  intros y Hy. apply H. now right.
Qed.

Lemma sum_map_plus {A} (f g : A -> Q) (l : list A) :
  Py.sum (map (fun x => f x + g x) l) == Py.sum (map f l) + Py.sum (map g l).
Proof.
  induction l as [|x l IH]; simpl.
  - change (Py.sum []) with 0. ring.
  - rewrite !sum_cons, IH. ring.
Qed.

Lemma sum_share_absent (x : string) (v : Q) (ks : list string) :
  ~ In x ks -> Py.sum (map (fun k => share x k v) ks) == 0.
Proof.
  induction ks as [|k ks IH]; intros H; simpl; [reflexivity|].
  assert (Z : Py.sum (map (fun k => share x k v) ks) == 0)
    by (apply IH; intros I; apply H; now right).
  rewrite sum_cons, Z. unfold share.
  destruct (String.eqb_spec x k) as [E|E]; [|ring].
  elim H. now left.
Qed.

Lemma sum_share_once (x : string) (v : Q) (ks : list string) :
  NoDup ks -> In x ks -> Py.sum (map (fun k => share x k v) ks) == v.
Proof.
  induction ks as [|k ks IH]; intros W H; simpl; [contradiction|].
  inversion W as [|? ? Hk W']; subst. rewrite sum_cons. unfold share at 1.
  destruct (String.eqb_spec x k) as [E|E].
  - subst k. rewrite (sum_share_absent x v ks Hk). ring.
  - assert (I : In x ks) by (destruct H; congruence).
    rewrite (IH W' I). ring.
Qed.

(** Adding, over months that are pairwise different and cover the
    expenses, what a list of expenses has in each month gives the total of
    the list. *)
Lemma sum_by_months (ks : list string) (es : list Expense) :
  NoDup ks -> (forall e, In e es -> In (month_key e) ks) ->
  Py.sum (map (fun k => Py.sum (map value (filter (in_month k) es))) ks)
  == Py.sum (map value es).
Proof.
  intros W. induction es as [|e es IH]; intros H.
  - simpl. clear. induction ks as [|k ks IH]; simpl; [reflexivity|].
    rewrite sum_cons, IH. change (Py.sum []) with 0. ring.
  - assert (R : Py.sum
                    (map (fun k => Py.sum (map value (filter (in_month k) es)))
                       ks)
                  == Py.sum (map value es))
      by (apply IH; intros x Hx; apply H; now right).
    assert (S : Py.sum (map (fun k => share (month_key e) k (value e)) ks)
                == value e)
      by (apply sum_share_once; [exact W | apply H; now left]).
    change (map value (e :: es)) with (value e :: map value es).
    rewrite (sum_cons (value e) (map value es)), <- R, <- S, <- sum_map_plus. apply sum_map_ext. intros k _.
    simpl. unfold in_month at 1, share.
    destruct (String.eqb (month_key e) k); simpl.
    + apply sum_cons.
    + ring.
Qed.





(** ** Further properties of the settlements *)

Lemma transfers_inv_body (cs0 ds0 : list party) (st : loop_state) :
  transfers_inv cs0 ds0 st -> loop_cond st = true ->
  transfers_inv cs0 ds0 (loop_body st).
Proof.
  intros [R [P [Tc Td]]] H.
  destruct (loop_cond_true st H) as [cn [cb [cs [dn [db [ds [Hc Hd]]]]]]].
  rewrite Hc in Tc. rewrite Hd in Td. rewrite !total_cons in Tc, Td.
  simpl in Tc, Td. unfold transfers_inv.
  destruct (loop_body_cases st cn cb cs dn db ds Hc Hd)
    as [[L E]|[[L E]|[L E]]]; rewrite E; simpl; repeat split.
  all: try (intros n; specialize (R n); specialize (P n);
            rewrite Hc in R; rewrite Hd in P;
            rewrite owed_cons in R; rewrite owed_cons in P;
            rewrite ?owed_cons, ?received_snoc, ?paid_snoc, ?share_minus;
            unfold creditor_of, debtor_of, amount_of; simpl;
            pose proof (share_eq dn n cb db);
            lra).
  all: rewrite map_app, sum_app;
    set (done := Py.sum (map amount_of (settlements st))) in *;
    simpl; rewrite sum_cons, ?total_cons;
    change (Py.sum []) with 0; unfold amount_of; simpl; lra.
Qed.

Lemma initial_transfers_inv (b : Py.dict Q) :
  transfers_inv (creditors_of b) (debtors_of b) (initial_state b).
Proof.
  pose proof (sort_desc_perm (creditors_of b)) as Pc.
  pose proof (sort_desc_perm (debtors_of b)) as Pd.
  unfold transfers_inv, initial_state; simpl. repeat split.
  - intros n. rewrite (owed_perm _ _ n Pc).
    unfold received; simpl. change (Py.sum []) with 0. ring.
  - intros n. rewrite (owed_perm _ _ n Pd).
    unfold paid; simpl. change (Py.sum []) with 0. ring.
  - rewrite (total_perm _ _ Pc). change (Py.sum []) with 0. ring.
  - rewrite (total_perm _ _ Pd). change (Py.sum []) with 0. ring.
Qed.

Lemma owed_nonneg (l : list party) (n : string) : positive l -> 0 <= owed l n.
Proof.
  intros P. induction P as [|[k a] l Hp P IH].
  - unfold owed; simpl. change (Py.sum []) with 0. lra.
  - rewrite owed_cons. unfold share. simpl in Hp.
    destruct (String.eqb k n); lra.
Qed.

Lemma total_nonneg (l : list party) : positive l -> 0 <= total l.
Proof.
  intros P. induction P as [|p l Hp P IH].
  - unfold total; simpl. change (Py.sum []) with 0. lra.
  - rewrite total_cons. lra.
Qed.

(** The state at the exit of the loop of a month. *)
Lemma settle_month_exit (b : Py.dict Q) :
  exists st,
    settle_month b = settlements st
    /\ transfers_inv (creditors_of b) (debtors_of b) st
    /\ positive (creditors st) /\ positive (debtors st)
    /\ (creditors st = [] \/ debtors st = []).
Proof.
  exists (while_loop (initial_state b)).
  destruct (while_loop_invariant _ (transfers_inv_body _ _) _
              (initial_transfers_inv b)) as [T Hexit].
  destruct (while_loop_invariant _
              (parties_inv_body (names (creditors_of b))
                 (names (debtors_of b)))
              (initial_state b) (initial_parties_inv b))
    as [[Pos_c [Pos_d _]] _].
  split; [reflexivity|]. split; [exact T|].
  split; [exact Pos_c|]. split; [exact Pos_d|].
  now apply loop_cond_false.
Qed.

Lemma fair_amounts_nonneg (cnames dnames : list string)
  (ss : list settlement) (n : string) :
  Forall (fair cnames dnames) ss -> 0 <= paid ss n /\ 0 <= received ss n.
Proof.
  intros F. induction F as [|s ss [Ha _] F [IHp IHr]].
  - unfold paid, received; simpl. change (Py.sum []) with 0. split; lra.
  - rewrite paid_cons, received_cons. unfold share.
    destruct (String.eqb (debtor_of s) n);
      destruct (String.eqb (creditor_of s) n); split; lra.
Qed.

(** What [n] pays and receives in a month, between zero and what the
    balance map makes him owe or be owed. *)
Lemma settle_month_bounds (b : Py.dict Q) (n : string) :
  (0 <= paid (settle_month b) n <= owed (debtors_of b) n)
  /\ (0 <= received (settle_month b) n <= owed (creditors_of b) n).
Proof.
  destruct (settle_month_exit b) as [st [E [[R [P _]] [Pc [Pd _]]]]].
  destruct (fair_amounts_nonneg _ _ _ n (settle_month_fair b)) as [Np Nr].
  specialize (R n). specialize (P n). rewrite <- E in R, P.
  pose proof (owed_nonneg _ n Pc). pose proof (owed_nonneg _ n Pd).
  repeat split; lra.
Qed.

Lemma forall2_compose {A} (R1 R2 R3 : A -> A -> Prop) (l1 l2 l3 : list A) :
  (forall x y z, R1 x y -> R2 y z -> R3 x z) ->
  Forall2 R1 l1 l2 -> Forall2 R2 l2 l3 -> Forall2 R3 l1 l3.
Proof.
  intros H F. revert l3. induction F as [|x y l1 l2 Hxy F IH]; intros l3 G.
  - inversion G. constructor.
  - inversion G as [|? z ? l3' Hyz G']; subst. constructor.
    + now apply (H x y z).
    + now apply IH.
Qed.

(** The balance of every key after the settlements [ss]. *)
Lemma apply_settlements_entries (ss : list settlement) (b : Py.dict Q) :
  Forall2 (fun old new =>
             fst new = fst old
             /\ snd new
                == snd old + paid ss (fst old) - received ss (fst old))
    b (apply_settlements ss b).
Proof.
  unfold apply_settlements. revert b.
  induction ss as [|s ss IH]; intros b; simpl.
  - induction b as [|[k v] b IHb]; constructor; [|exact IHb].
    split; [reflexivity|]. unfold paid, received; simpl.
    change (Py.sum []) with 0. ring.
  - eapply forall2_compose;
      [|apply (apply_settlement_entry s b) | apply IH].
    intros x y z [K1 V1] [K2 V2]. simpl in *. split; [congruence|].
    rewrite V2, V1, K1, paid_cons, received_cons. ring.
Qed.

Lemma forall2_impl_in {A B} (R R' : A -> B -> Prop) (l1 : list A)
  (l2 : list B) :
  (forall x y, In x l1 -> R x y -> R' x y) ->
  Forall2 R l1 l2 -> Forall2 R' l1 l2.
Proof.
  intros H F. induction F as [|x y l1 l2 Hxy F IH]; constructor.
  - apply H; [now left | exact Hxy].
  - apply IH. intros a c Ha. apply H. now right.
Qed.

Lemma forall2_forall_right {A B} (R : A -> B -> Prop) (P : B -> Prop)
  (l1 : list A) (l2 : list B) :
  (forall x y, In x l1 -> R x y -> P y) -> Forall2 R l1 l2 -> Forall P l2.
Proof.
  intros H F. induction F as [|x y l1 l2 Hxy F IH]; constructor.
  - apply (H x); [now left | exact Hxy].
  - apply IH. intros a c Ha. apply H. now right.
Qed.

(** The balance of a key of a dictionary after the month's settlements,
    with what the key pays and receives. *)
Lemma settle_month_entry (b : Py.dict Q) (n : string) (v : Q) :
  Py.dict_wf b -> In (n, v) b ->
  (0 <= paid (settle_month b) n <= (if Py.Qlt_bool v 0 then - v else 0))
  /\ (0 <= received (settle_month b) n
      <= (if Py.Qlt_bool 0 v then v else 0)).
Proof.
  intros W Hin. destruct (settle_month_bounds b n) as [[P0 P1] [R0 R1]].
  rewrite (owed_debtors _ _ _ W Hin) in P1.
  rewrite (owed_creditors _ _ _ W Hin) in R1. now repeat split.
Qed.

(** After the settlements of a month, no positive balance is left or no
    negative one. *)
Lemma one_side_cleared (balances : Py.dict Q) :
  Py.dict_wf balances ->
  Forall (fun nb => snd nb <= 0)
    (apply_settlements (settle_month balances) balances)
  \/ Forall (fun nb => 0 <= snd nb)
       (apply_settlements (settle_month balances) balances).
Proof.
  intros W.
  pose proof (apply_settlements_entries (settle_month balances) balances)
    as F.
  destruct (settle_month_exit balances)
    as [st [E [[R [P _]] [Pc [Pd [Hc|Hd]]]]]].
  - left. eapply forall2_forall_right; [|exact F].
    intros [n v] [n' v'] Hin [K V]. simpl in K, V |- *.
    destruct (settle_month_entry balances n v W Hin) as [[P0 P1] [R0 R1]].
    specialize (R n). rewrite <- E, Hc in R.
    change (owed [] n) with 0 in R.
    rewrite (owed_creditors _ _ _ W Hin) in R. rewrite V.
    destruct (Py.Qlt_bool v 0) eqn:E1; destruct (Py.Qlt_bool 0 v) eqn:E2;
      qlt_hyps; lra.
  - right. eapply forall2_forall_right; [|exact F].
    intros [n v] [n' v'] Hin [K V]. simpl in K, V |- *.
    destruct (settle_month_entry balances n v W Hin) as [[P0 P1] [R0 R1]].
    specialize (P n). rewrite <- E, Hd in P.
    change (owed [] n) with 0 in P.
    rewrite (owed_debtors _ _ _ W Hin) in P. rewrite V.
    destruct (Py.Qlt_bool v 0) eqn:E1; destruct (Py.Qlt_bool 0 v) eqn:E2;
      qlt_hyps; lra.
Qed.





Lemma settle_month_moved (b : Py.dict Q) :
  Py.sum (map amount_of (settle_month b)) <= total (creditors_of b)
  /\ Py.sum (map amount_of (settle_month b)) <= total (debtors_of b)
  /\ (Py.sum (map amount_of (settle_month b)) == total (creditors_of b)
      \/ Py.sum (map amount_of (settle_month b)) == total (debtors_of b)).
Proof.
  destruct (settle_month_exit b) as [st [E [[_ [_ [Tc Td]]] [Pc [Pd X]]]]].
  rewrite <- E in Tc, Td.
  pose proof (total_nonneg _ Pc). pose proof (total_nonneg _ Pd).
  split; [lra|]. split; [lra|].
  destruct X as [X|X]; rewrite X in *.
  - left. change (total []) with 0 in Tc. lra.
  - right. change (total []) with 0 in Td. lra.
Qed.



Lemma creditors_nil_iff (b : Py.dict Q) :
  creditors_of b = [] <-> Forall (fun nb => snd nb <= 0) b.
Proof.
  induction b as [|[k w] b IH].
  - split; [constructor | reflexivity].
  - rewrite creditors_of_cons. destruct (Py.Qlt_bool 0 w) eqn:E; qlt_hyps.
    + split; [discriminate|]. intros H. inversion H; subst. simpl in *. lra.
    + rewrite IH. split; intros H.
      * now constructor.
      * now inversion H.
Qed.

Lemma debtors_nil_iff (b : Py.dict Q) :
  debtors_of b = [] <-> Forall (fun nb => 0 <= snd nb) b.
Proof.
  induction b as [|[k w] b IH].
  - split; [constructor | reflexivity].
  - rewrite debtors_of_cons. destruct (Py.Qlt_bool w 0) eqn:E; qlt_hyps.
    + split; [discriminate|]. intros H. inversion H; subst. simpl in *. lra.
    + rewrite IH. split; intros H.
      * now constructor.
      * now inversion H.
Qed.

Lemma sort_desc_nil (l : list party) : sort_desc l = [] <-> l = [].
Proof.
  split; intros H.
  - apply length_zero_iff_nil. rewrite <- (sort_desc_length l), H.
    reflexivity.
  - now subst l.
Qed.

Lemma settle_month_one_sided (b : Py.dict Q) :
  creditors_of b = [] \/ debtors_of b = [] -> settle_month b = [].
Proof.
  intros H. unfold settle_month. rewrite while_loop_step.
  assert (E : loop_cond (initial_state b) = false).
  { apply loop_cond_false. unfold initial_state; simpl.
    destruct H as [H|H]; rewrite H; [now left | now right]. }
  now rewrite E.
Qed.

(** X14. A month gets no settlement exactly when nobody is owed money or
    nobody owes money, that is when no balance is positive or no balance is
    negative (in particular for an empty balance map and for one with only
    zeros); as soon as there is a creditor and a debtor there is at least
    one settlement. *)
Theorem no_settlement_iff_one_sided (balances : Py.dict Q) :
  settle_month balances = []
  <-> (Forall (fun nb => snd nb <= 0) balances
       \/ Forall (fun nb => 0 <= snd nb) balances).
Proof.
  rewrite <- creditors_nil_iff, <- debtors_nil_iff. split.
  - intros E. destruct (settle_month_moved balances) as [_ [_ M]].
    rewrite E in M. change (Py.sum (map amount_of [])) with 0 in M.
    destruct (creditors_of balances) as [|c cs] eqn:Ec; [now left|].
    destruct (debtors_of balances) as [|dd ds] eqn:Ed; [now right|].
    exfalso.
    assert (0 < total (c :: cs)).
    { apply total_positive; [|discriminate]. rewrite <- Ec.
      apply creditors_positive. }
    assert (0 < total (dd :: ds)).
    { apply total_positive; [|discriminate]. rewrite <- Ed.
      apply debtors_positive. }
    destruct M; lra.
  - apply settle_month_one_sided.
Qed.



Lemma insert_desc_descending (x : party) (l : list party) :
  descending l -> descending (insert_desc x l).
Proof.
  induction l as [|y l IH]; simpl; [intros _; split; [constructor | exact I]|].
  intros [F D]. destruct (Py.Qlt_bool (snd x) (snd y)) eqn:E; qlt_hyps.
  - simpl. split; [|now apply IH].
    rewrite (insert_desc_perm x l). constructor; [lra | exact F].
  - simpl. split; [|now split]. constructor; [exact E|].
    eapply Forall_impl; [|exact F]. simpl. intros a Ha. lra.
Qed.

Lemma sort_desc_descending (l : list party) : descending (sort_desc l).
Proof.
  induction l as [|x l IH]; simpl; [exact I|].
  now apply insert_desc_descending.
Qed.

Lemma sort_desc_head_max (l : list party) (x : party) (rest : list party) :
  sort_desc l = x :: rest ->
  In x l /\ Forall (fun y => snd y <= snd x) l.
Proof.
  intros E. pose proof (sort_desc_perm l) as P.
  pose proof (sort_desc_descending l) as D. rewrite E in P, D.
  destruct D as [F _]. split.
  - apply (Permutation_in _ P). now left.
  - rewrite <- P. constructor; [lra | exact F].
Qed.

Lemma loop_body_settlements (st : loop_state) cn cb cs dn db ds :
  creditors st = (cn, cb) :: cs -> debtors st = (dn, db) :: ds ->
  settlements (loop_body st) = settlements st ++ [(dn, cn, Py.min cb db)].
Proof.
  intros Hc Hd. unfold loop_body. rewrite Hc, Hd.
  destruct (Py.Qlt_bool db cb); [reflexivity|].
  destruct (Py.Qlt_bool cb db); reflexivity.
Qed.

(** The loop only adds settlements, at the end of the list. *)
Lemma while_loop_extends (st : loop_state) :
  exists ext, settlements (while_loop st) = settlements st ++ ext.
Proof.
  destruct (while_loop_invariant
              (fun s => exists ext, settlements s = settlements st ++ ext))
    with (st := st) as [H _].
  - intros s [ext E] C.
    destruct (loop_cond_true s C) as [cn [cb [cs [dn [db [ds [Hc Hd]]]]]]].
    rewrite (loop_body_settlements s cn cb cs dn db ds Hc Hd), E.
    eexists. now rewrite <- app_assoc.
  - exists []. now rewrite app_nil_r.
  - exact H.
Qed.

(** X16. Largest first: when a month has a positive and a negative
    balance, its first settlement goes from the participant with the lowest
    balance to the participant with the highest balance, and its amount is
    the smaller of what the one owes and what the other is owed. *)
Theorem first_settlement_is_largest (balances : Py.dict Q) :
  (exists n v, In (n, v) balances /\ 0 < v) ->
  (exists n v, In (n, v) balances /\ v < 0) ->
  exists debtor creditor vd vc rest,
    settle_month balances = (debtor, creditor, Py.min vc (- vd)) :: rest
    /\ In (creditor, vc) balances /\ In (debtor, vd) balances
    /\ Forall (fun nb => snd nb <= vc) balances
    /\ Forall (fun nb => vd <= snd nb) balances.
Proof.
  intros [nc [wc [Ic Lc]]] [nd [wd [Id Ld]]].
  assert (Hc : In (nc, wc) (creditors_of balances))
    by (apply filter_In; split; [exact Ic | now apply Qlt_bool_true]).
  assert (Hd : In (nd, - wd) (debtors_of balances)).
  { unfold debtors_of.
    change (nd, - wd) with ((fun nb : string * Q => (fst nb, - snd nb))
                              (nd, wd)).
    apply in_map. apply filter_In. split; [exact Id|].
    now apply Qlt_bool_true. }
  destruct (sort_desc (creditors_of balances)) as [|[cn cb] cs] eqn:Ec.
  { apply (proj1 (sort_desc_nil _)) in Ec. rewrite Ec in Hc. contradiction. }
  destruct (sort_desc (debtors_of balances)) as [|[dn db] ds] eqn:Ed.
  { apply (proj1 (sort_desc_nil _)) in Ed. rewrite Ed in Hd. contradiction. }
  destruct (sort_desc_head_max _ _ _ Ec) as [Mc Fc].
  destruct (sort_desc_head_max _ _ _ Ed) as [Md Fd].
  simpl in Fc, Fd.
  apply filter_In in Mc. destruct Mc as [Mc Pc]. simpl in Pc. qlt_hyps.
  unfold debtors_of in Md. apply in_map_iff in Md.
  destruct Md as [[k vd] [Ek Md]]. simpl in Ek. injection Ek as -> <-.
  apply filter_In in Md. destruct Md as [Md Pd]. simpl in Pd. qlt_hyps.
  assert (S : exists rest,
            settle_month balances = (dn, cn, Py.min cb (- vd)) :: rest).
  { unfold settle_month. rewrite while_loop_step.
    assert (C : loop_cond (initial_state balances) = true)
      by (unfold loop_cond, initial_state; simpl; now rewrite Ec, Ed).
    rewrite C.
    destruct (while_loop_extends (loop_body (initial_state balances)))
      as [ext E].
    rewrite E.
    rewrite (loop_body_settlements (initial_state balances)
               cn cb cs dn (- vd) ds)
      by (unfold initial_state; simpl; assumption).
    simpl. now exists ext. }
  destruct S as [rest S].
  exists dn, cn, vd, cb, rest.
  split; [exact S|]. split; [exact Mc|]. split; [exact Md|]. split.
  - apply Forall_forall. intros [k w] Hin. simpl.
    destruct (Py.Qlt_bool 0 w) eqn:E; qlt_hyps; [|lra].
    rewrite Forall_forall in Fc. apply (Fc (k, w)).
    apply filter_In. split; [exact Hin | now apply Qlt_bool_true].
  - apply Forall_forall. intros [k w] Hin. simpl.
    destruct (Py.Qlt_bool w 0) eqn:E; qlt_hyps; [|lra].
    rewrite Forall_forall in Fd.
    assert (Hw : In (k, - w) (debtors_of balances)).
    { unfold debtors_of.
      change (k, - w) with ((fun nb : string * Q => (fst nb, - snd nb))
                              (k, w)).
      apply in_map. apply filter_In. split; [exact Hin|].
      now apply Qlt_bool_true. }
    specialize (Fd _ Hw). simpl in Fd. lra.
Qed.

Lemma first_settlement_is_largest_witness :
  exists debtor creditor vd vc rest,
    settle_month five_balances = (debtor, creditor, Py.min vc (- vd)) :: rest
    /\ In (creditor, vc) five_balances /\ In (debtor, vd) five_balances.
Proof.
  destruct (first_settlement_is_largest five_balances)
    as [dn [cn [vd [vc [rest [S [Ic [Id _]]]]]]]].
  - exists "A", 6. split; [simpl; tauto | reflexivity].
  - exists "C", (-(5)). split; [simpl; tauto | reflexivity].
  - exists dn, cn, vd, vc, rest. now repeat split.
Defined.

(** ** Persistence *)

Lemma traverse_map_round_trip {A B} (f : A -> B) (g : B -> Py.outcome A)
  (l : list A) :
  (forall x, In x l -> g (f x) = Py.Returned x) ->
  traverse g (map f l) = Py.Returned l.
Proof.
  induction l as [|x l IH]; intros H; simpl; [reflexivity|].
  rewrite (H x (or_introl eq_refl)). simpl.
  rewrite IH by (intros y Hy; apply H; now right). reflexivity.
Qed.

Lemma traverse_raised {A B} (f : A -> Py.outcome B) (l : list A)
  (e : Py.exn) :
  traverse f l = Py.Raised e -> exists x, In x l /\ f x = Py.Raised e.
Proof.
  induction l as [|x l IH]; simpl; [discriminate|].
  destruct (f x) as [y|e'] eqn:E; simpl.
  - destruct (traverse f l) as [ys|e'']; simpl; [discriminate|].
    intros [= ->]. destruct (IH eq_refl) as [z [Hz Fz]].
    exists z. split; [now right | exact Fz].
  - intros [= ->]. exists x. split; [now left | exact E].
Qed.

Lemma traverse_returned {A B} (f : A -> Py.outcome B) (l : list A) :
  (forall x, In x l -> exists y, f x = Py.Returned y) ->
  exists ys, traverse f l = Py.Returned ys.
Proof.
  induction l as [|x l IH]; intros H; simpl; [now exists []|].
  destruct (H x (or_introl eq_refl)) as [y ->]. simpl.
  destruct IH as [ys ->]; [intros z Hz; apply H; now right|].
  simpl. now exists (y :: ys).
Qed.

Section RoundTrip.

Context {L : Library} (laws : LibraryLaws L).

Lemma expense_round_trip (e : Expense) :
  storable e -> Expense_from_dict (Expense_to_dict e) = Py.Returned e.
Proof.
  intros [Hid Hdate]. unfold Expense_from_dict, Expense_to_dict. simpl.
  rewrite (date_round_trip L laws _ Hdate). simpl.
  rewrite (uuid_round_trip L laws _ Hid). simpl. now destruct e.
Qed.

Lemma person_round_trip (p : Person) :
  Forall storable (expenses p) ->
  Person_from_dict (Person_to_dict p) = Py.Returned p.
Proof.
  intros H. unfold Person_from_dict, Person_to_dict. simpl.
  rewrite traverse_map_round_trip.
  - simpl. now destruct p.
  - intros e He. apply expense_round_trip.
    rewrite Forall_forall in H. now apply H.
Qed.

End RoundTrip.

(** X17. Saving and loading give the ledger back.  With a library whose
    parsers read back what [str(uuid)] and [isoformat()] print, every
    participant is rebuilt from his own dictionary, expenses and their
    identifiers included; [load_data] on the file that [save_data] wrote
    returns without raising and sets the participants to those that were
    saved, whatever the manager held before; and [save_data] leaves every
    other file as it was. *)
Theorem save_then_load_restores (L : Library) (laws : LibraryLaws L)
  (filepath : string) (self other : ExpenseManager) (disk : files) :
  (forall p, In p (persons self) -> Forall storable (expenses p)) ->
  (forall p, In p (persons self) ->
             Person_from_dict (Person_to_dict p) = Py.Returned p)
  /\ load_data filepath (save_data filepath self disk) other
     = (Py.Returned tt, self)
  /\ (forall path, path <> filepath ->
        Py.get (save_data filepath self disk) path = Py.get disk path).
Proof.
  intros H. split; [|split].
  - intros p Hp. apply (person_round_trip laws). now apply H.
  - unfold load_data, save_data. rewrite get_set, String.eqb_refl.
    rewrite traverse_map_round_trip.
    + now destruct self.
    + intros p Hp. apply (person_round_trip laws). now apply H.
  - intros path Hpath. unfold save_data. rewrite get_set.
    destruct (String.eqb_spec filepath path); [congruence | reflexivity].
Qed.


Lemma digit_value_digit (n : Z) : digit_value (Py.digit n) = (n mod 10)%Z.
Proof.
  unfold digit_value, Py.digit.
  assert (H : (0 <= n mod 10 < 10)%Z) by (apply Z.mod_pos_bound; lia).
  rewrite N_ascii_embedding by lia. lia.
Qed.

Lemma days_in_month_le (y m : Z) : (days_in_month y m <= 31)%Z.
Proof.
  unfold days_in_month.
  destruct (m =? 2)%Z; [destruct (is_leap y); lia|].
  destruct ((m =? 4) || (m =? 6) || (m =? 9) || (m =? 11))%Z; lia.
Qed.

Lemma isoformat_chars (y m dd : Z) :
  isoformat (Py.mkdate y m dd)
  = String (Py.digit (y / 1000)) (String (Py.digit (y / 100))
      (String (Py.digit (y / 10)) (String (Py.digit y) (String "-"
         (String (Py.digit (m / 10)) (String (Py.digit m) (String "-"
            (String (Py.digit (dd / 10))
               (String (Py.digit dd) EmptyString))))))))).
Proof. reflexivity. Qed.

Lemma strict_fromisoformat_chars (y3 y2 y1 y0 m1 m0 d1 d0 : ascii) :
  strict_fromisoformat
    (String y3 (String y2 (String y1 (String y0 (String "-"
       (String m1 (String m0 (String "-"
          (String d1 (String d0 EmptyString))))))))))
  = Py.Returned
      (Py.mkdate
         (1000 * digit_value y3 + 100 * digit_value y2
          + 10 * digit_value y1 + digit_value y0)
         (10 * digit_value m1 + digit_value m0)
         (10 * digit_value d1 + digit_value d0)).
Proof. reflexivity. Qed.

Lemma strict_fromisoformat_isoformat (d : Py.date) :
  is_date d -> strict_fromisoformat (isoformat d) = Py.Returned d.
Proof.
  destruct d as [y m dd]. unfold is_date.
  cbn [Py.year Py.month Py.day]. intros [Hy [Hm Hd]].
  pose proof (days_in_month_le y m) as Hmax.
  rewrite isoformat_chars, strict_fromisoformat_chars, !digit_value_digit.
  f_equal. f_equal.
  - Z.to_euclidean_division_equations. lia.
  - Z.to_euclidean_division_equations. lia.
  - Z.to_euclidean_division_equations. lia.
Qed.

Lemma unary_length (n : nat) : String.length (unary n) = n.
Proof. induction n as [|n IH]; simpl; [reflexivity | now rewrite IH]. Qed.

Lemma unary_library_laws : LibraryLaws unary_library.
Proof.
  split.
  - intros u _. simpl. now rewrite unary_length, Nnat.N2Nat.id.
  - intros d Hd. simpl. now apply strict_fromisoformat_isoformat.
Qed.

Lemma save_then_load_restores_witness :
  load_data (L := unary_library) "expenses_data.json"
    (save_data (L := unary_library) "expenses_data.json" alice_bob [])
    (mkManager [])
  = (Py.Returned tt, alice_bob)
  /\ save_data (L := unary_library) "expenses_data.json" alice_bob []
     = [("expenses_data.json",
         [mkPersonDict "Alice" false
            [mkExpenseDict "1" "inv-1" "rent" 90 "2024-03-15"];
          mkPersonDict "Bob" true []])].
Proof.
  split; [|reflexivity].
  apply (save_then_load_restores unary_library unary_library_laws
           "expenses_data.json" alice_bob (mkManager []) []).
  intros p [Hp | [Hp | []]]; subst p; simpl; [|constructor].
  constructor; [|constructor]. split; [reflexivity|].
  repeat split; vm_compute; discriminate.
Defined.


(** ** Deleting a participant, duplicate names, number of settlements *)

(** X19. Deleting a participant takes his expenses out of the monthly
    grouping and nothing else: after [delete_person], an expense is in some
    bucket exactly when it belongs to a participant of another name. *)
Theorem delete_person_cascades (n : string) (self : ExpenseManager)
  (e : Expense) :
  In e (flat_map snd
          (get_expenses_by_month (persons (run (delete_person n) self))))
  <-> exists p, In p (persons self) /\ name p <> n /\ In e (expenses p).
Proof.
  pose proof (buckets_perm (persons (run (delete_person n) self))) as P.
  assert (M : In e (flat_map snd
                      (get_expenses_by_month
                         (persons (run (delete_person n) self))))
              <-> In e (flat_map expenses
                          (persons (run (delete_person n) self)))).
  { split; apply Permutation_in; [exact P | now symmetry]. }
  rewrite M, in_flat_map. unfold run, delete_person. simpl.
  split; intros [p [Hp He]].
  - apply filter_In in Hp. destruct Hp as [Hp Hn].
    exists p. split; [exact Hp|]. split; [|exact He].
    now destruct (String.eqb_spec (name p) n).
  - destruct He as [Hn He]. exists p. split; [|exact He].
    apply filter_In. split; [exact Hp|].
    now destruct (String.eqb_spec (name p) n).
Qed.

Lemma find_append {A} (f : A -> bool) (l1 l2 : list A) :
  find f (l1 ++ l2)
  = match find f l1 with Some x => Some x | None => find f l2 end.
Proof.
  induction l1 as [|x l1 IH]; simpl; [reflexivity|].
  now destruct (f x).
Qed.

Lemma fold_set_get (rows : list totals_row) (acc : Py.dict Q) (n : string) :
  Py.get
    (fold_left (fun b r => Py.set b (row_name r) (row_difference r)) rows acc)
    n
  = match find (fun r => String.eqb (row_name r) n) (rev rows) with
    | Some r => Some (row_difference r)
    | None => Py.get acc n
    end.
Proof.
  revert acc. induction rows as [|r rows IH]; intros acc; simpl;
    [reflexivity|].
  rewrite IH, find_append.
  destruct (find (fun r0 => String.eqb (row_name r0) n) (rev rows));
    [reflexivity|].
  simpl. rewrite get_set. now destruct (String.eqb (row_name r) n).
Qed.



Lemma received_absent (ss : list settlement) (n : string) :
  ~ In n (map creditor_of ss) -> received ss n == 0.
Proof.
  induction ss as [|s ss IH]; intros H; [reflexivity|].
  assert (Z : received ss n == 0) by (apply IH; intros I; apply H; now right).
  rewrite received_cons, Z. unfold share.
  destruct (String.eqb_spec (creditor_of s) n) as [E|E]; [|ring].
  elim H. now left.
Qed.

Lemma paid_absent (ss : list settlement) (n : string) :
  ~ In n (map debtor_of ss) -> paid ss n == 0.
Proof.
  induction ss as [|s ss IH]; intros H; [reflexivity|].
  assert (Z : paid ss n == 0) by (apply IH; intros I; apply H; now right).
  rewrite paid_cons, Z. unfold share.
  destruct (String.eqb_spec (debtor_of s) n) as [E|E]; [|ring].
  elim H. now left.
Qed.

Lemma nodup_map_filter {A B} (f : A -> B) (g : A -> bool) (l : list A) :
  NoDup (map f l) -> NoDup (map f (filter g l)).
Proof.
  induction l as [|x l IH]; simpl; [trivial|].
  intros H. inversion H as [|? ? Hx Hl]; subst.
  destruct (g x); simpl; [|now apply IH].
  constructor; [|now apply IH].
  intros I. apply Hx. apply in_map_iff in I. destruct I as [y [Hy I]].
  apply filter_In in I. rewrite <- Hy. apply in_map. tauto.
Qed.


